(** * The JSON serializer of @deepkit/type: compilers, unions, enums, validation

    A shallow embedding of [packages/type/src/json-serializer.ts].  The
    serializer registers, per type tag and direction, a compiler that emits a
    fragment of JavaScript reading an accessor and assigning a setter.  The
    embedding gives every fragment its meaning as a function from the value
    read to the effect on the setter:

    - [Ok (Some v)]: the setter was assigned [v];
    - [Ok None]: the fragment finished without touching the setter;
    - [Throw e]: the fragment raised [e].

    The pieces of the framework the serializer calls but that live in other
    files (the union sorter and its guards, the per-property dispatcher, the
    schema pipelines, the validator, the enum helpers of @deepkit/core) are
    parameters of the compilers here, and are given a model further down. *)

From stdpp Require Import gmap strings list fin_maps.
From Stdlib Require Import ZArith Ascii String DecimalString.

#[local] Set Warnings "-register-all".
#[local] Open Scope string_scope.
#[local] Open Scope list_scope.
#[local] Open Scope Z_scope.

(** ** JavaScript values

    Numbers are the integers plus [NaN]; fractions are outside the model.
    An object is a finite map from keys to values, with the name of its class
    when it is an instance and [None] when it is a plain object literal. *)

Inductive value : Type :=
| VUndefined
| VNull
| VBool (b : bool)
| VNum (n : Z)
| VNaN
| VStr (s : string)
| VArr (items : list value)
| VObj (cls : option string) (fields : gmap string value).

(** The [typeof] operator. *)
Definition typeof (v : value) : string :=
  match v with
  | VUndefined => "undefined"
  | VNull => "object"
  | VBool _ => "boolean"
  | VNum _ | VNaN => "number"
  | VStr _ => "string"
  | VArr _ | VObj _ _ => "object"
  end.

(** Strict equality [===].  Two object or array operands are equal only when
    they are the same reference, which never holds between an input and a
    constant of the schema; [NaN] differs from itself. *)
Definition strict_eq (a b : value) : bool :=
  match a, b with
  | VUndefined, VUndefined => true
  | VNull, VNull => true
  | VBool x, VBool y => bool_decide (x = y)
  | VNum x, VNum y => bool_decide (x = y)
  | VStr x, VStr y => bool_decide (x = y)
  | _, _ => false
  end.

(** Property read [o.k] on a value that is neither [null] nor [undefined]. *)
Definition get_prop (o : value) (k : string) : value :=
  match o with
  | VObj _ fields => default VUndefined (fields !! k)
  | _ => VUndefined
  end.

Definition string_of_Z (n : Z) : string := NilZero.string_of_int (Z.to_int n).

(** [String(v)], as used by ['' + v] and by [Array.prototype.join]. *)
Fixpoint to_string (v : value) : string :=
  match v with
  | VUndefined => "undefined"
  | VNull => "null"
  | VBool true => "true"
  | VBool false => "false"
  | VNum n => string_of_Z n
  | VNaN => "NaN"
  | VStr s => s
  | VArr items =>
      String.concat ","
        (map (fun x => match x with
                       | VUndefined | VNull => ""
                       | _ => to_string x
                       end) items)
  | VObj _ _ => "[object Object]"
  end.

(** [xs.join(',')]. *)
Definition join_values (xs : list value) : string := to_string (VArr xs).

Definition is_space (c : ascii) : bool :=
  match c with
  | " "%char | "009"%char | "010"%char | "013"%char => true
  | _ => false
  end.

Definition digit_of (c : ascii) : option Z :=
  let n := Z.of_nat (nat_of_ascii c) in
  if (48 <=? n) && (n <=? 57) then Some (n - 48) else None.

Fixpoint drop_spaces (cs : list ascii) : list ascii :=
  match cs with
  | c :: rest => if is_space c then drop_spaces rest else cs
  | [] => []
  end.

Fixpoint read_digits (acc : Z) (cs : list ascii) : Z * list ascii :=
  match cs with
  | c :: rest =>
      match digit_of c with
      | Some d => read_digits (10 * acc + d) rest
      | None => (acc, cs)
      end
  | [] => (acc, [])
  end.

(** The numeric value of a string: surrounding blanks are dropped, the empty
    string is [0], a signed decimal integer is itself, anything else [NaN]. *)
Definition string_to_number (s : string) : value :=
  let cs := drop_spaces (list_ascii_of_string s) in
  let unsigned (sign : Z) (ds : list ascii) :=
    match ds with
    | d :: _ =>
        match digit_of d with
        | Some _ =>
            let '(n, rest) := read_digits 0 ds in
            match drop_spaces rest with
            | [] => VNum (sign * n)
            | _ => VNaN
            end
        | None => VNaN
        end
    | [] => VNaN
    end in
  match cs with
  | [] => VNum 0
  | "-"%char :: ds => unsigned (-1) ds
  | "+"%char :: ds => unsigned 1 ds
  | _ => unsigned 1 cs
  end.

(** Unary plus [+v]. *)
Definition to_number (v : value) : value :=
  match v with
  | VUndefined => VNaN
  | VNull => VNum 0
  | VBool true => VNum 1
  | VBool false => VNum 0
  | VNum n => VNum n
  | VNaN => VNaN
  | VStr s => string_to_number s
  | VArr _ => string_to_number (to_string v)
  | VObj _ _ => VNaN
  end.

(** ** Exceptions and completions *)

(** One entry of a validation report. *)
Record ValidationFailedItem : Type := {
  path : string;
  code : string;
  message : string;
}.

Inductive exn : Type :=
| Error (msg : string)
| TypeError (msg : string)
| SyntaxError (msg : string)
| ValidationFailed (errors : list ValidationFailedItem).

(** How a call ends.  [OutOfFuel] belongs to the step-indexed pipelines of
    the model only: the recursion budget ran out before the call finished. *)
Inductive result (A : Type) : Type :=
| Ok (a : A)
| Throw (e : exn)
| OutOfFuel.
Arguments Ok {A} a.
Arguments Throw {A} e.
Arguments OutOfFuel {A}.

#[global] Instance result_ret : MRet result := fun A a => Ok a.

#[global] Instance result_bind : MBind result := fun A B k r =>
  match r with
  | Ok a => k a
  | Throw e => Throw e
  | OutOfFuel => OutOfFuel
  end.

(** [try { body } catch (e) {}] around a fragment: an exception leaves the
    setter as it was. *)
Definition try_catch_ignore (body : result (option value)) : result (option value) :=
  match body with
  | Throw _ => Ok None
  | other => other
  end.

(** What a compiled fragment does to its setter. *)
Abbreviation step := (result (option value)).

Definition assign (v : value) : step := Ok (Some v).
Definition untouched : step := Ok None.

(** ** Schemas *)

(** The type tags the development covers. *)
Inductive Types : Type :=
| t_string | t_number | t_boolean | t_literal | t_enum
| t_class | t_union | t_array | t_map.

#[global] Instance Types_eq_dec : EqDecision Types.
Proof. solve_decision. Defined.

(** The tag as it is spelled in the source ([property.type]). *)
Definition type_name (t : Types) : string :=
  match t with
  | t_string => "string"
  | t_number => "number"
  | t_boolean => "boolean"
  | t_literal => "literal"
  | t_enum => "enum"
  | t_class => "class"
  | t_union => "union"
  | t_array => "array"
  | t_map => "map"
  end.

(** What [property.resolveClassType] yields: the members of an enum, in
    declaration order, as label and value; or a class, known by its name and
    looked up in the schema registry when it is used, so that a schema can
    refer to itself. *)
Inductive ClassType : Type :=
| EnumType (members : list (string * value))
| ClassRef (className : string).

(** A property of a schema.  [hasManualDefaultValue] is the answer of the
    method of that name; [templateArgs] holds the candidates of a union and
    the element type of an array or a map. *)
Inductive PropertySchema : Type := mkProperty {
  name : string;
  type : Types;
  isOptional : bool;
  isNullable : bool;
  isReference : bool;
  hasManualDefaultValue : bool;
  defaultValue : value;
  literalValue : value;
  allowLabelsAsValue : bool;
  resolveClassType : option ClassType;
  templateArgs : list PropertySchema;
}.

(** [decorator] names the decorated property of a wrapper class, if any. *)
Record ClassSchema : Type := mkSchema {
  schemaName : string;
  decorator : option string;
  properties : list PropertySchema;
}.

(** The schema registry behind [getClassSchema]. *)
Abbreviation Registry := (gmap string ClassSchema).

Definition getClassSchema (reg : Registry) (c : option ClassType) : option ClassSchema :=
  match c with
  | Some (ClassRef n) => reg !! n
  | _ => None
  end.

(** A property with nothing but a name and a type; the schemas below are
    written as updates of it. *)
Definition property (n : string) (t : Types) : PropertySchema :=
  {| name := n; type := t; isOptional := false; isNullable := false;
     isReference := false; hasManualDefaultValue := false;
     defaultValue := VUndefined; literalValue := VUndefined;
     allowLabelsAsValue := false; resolveClassType := None;
     templateArgs := [] |}.

(** ** The compilers of json-serializer.ts *)

(** [compilerToString]: [typeof v === 'string' ? v : ''+v]. *)
Definition compilerToString (p : PropertySchema) (v : value) : step :=
  assign (if bool_decide (typeof v = "string") then v else VStr ("" +:+ to_string v)).

(** [compilerToNumber], registered for both directions:
    [typeof v === 'number' ? v : +v]. *)
Definition compilerToNumber (p : PropertySchema) (v : value) : step :=
  assign (if bool_decide (typeof v = "number") then v else to_number v).

(** [toClass.register('literal')]: the setter gets the literal of the
    schema, whatever was read. *)
Definition toClass_literal (p : PropertySchema) (v : value) : step :=
  assign (literalValue p).

(** [toClass.prepend('undefined')]: a literal that is not optional is filled
    in; for every other property the hook emits nothing. *)
Definition toClass_prepend_undefined (p : PropertySchema) : option step :=
  if bool_decide (type p = t_literal) && negb (isOptional p)
  then Some (assign (literalValue p))
  else None.

(** [toClass.prepend('null')]: the same for a literal that is not nullable. *)
Definition toClass_prepend_null (p : PropertySchema) : option step :=
  if bool_decide (type p = t_literal) && negb (isNullable p)
  then Some (assign (literalValue p))
  else None.

(** [toClass.register('boolean')]: a boolean is kept; of the other values
    only ['true'], ['1'], [1] and ['false'], ['0'], [0] are understood. *)
Definition toClass_boolean (p : PropertySchema) (v : value) : step :=
  if bool_decide (typeof v = "boolean") then assign v
  else
    let s1 : step :=
      if strict_eq (VStr "true") v || strict_eq (VStr "1") v || strict_eq (VNum 1) v
      then assign (VBool true) else untouched in
    if strict_eq (VStr "false") v || strict_eq (VStr "0") v || strict_eq (VNum 0) v
    then assign (VBool false) else s1.

(** The members of the enum a property resolves to. *)
Definition enum_members (p : PropertySchema) : list (string * value) :=
  match resolveClassType p with
  | Some (EnumType members) => members
  | _ => []
  end.

Section Enum.
(** The enum helpers of @deepkit/core, as the compiler calls them. *)
Variable isValidEnumValue : list (string * value) -> value -> bool -> bool.
Variable getEnumValues : list (string * value) -> list value.
Variable getEnumLabels : list (string * value) -> list string.
Variable getValidEnumValue : list (string * value) -> value -> bool -> value.

(** The list behind [valids] when the error is built. *)
Definition enum_valids (p : PropertySchema) : list value :=
  let valids := getEnumValues (enum_members p) in
  if allowLabelsAsValue p
  then valids ++ map VStr (getEnumLabels (enum_members p))
  else valids.

(** [toClass.register('enum')]. *)
Definition toClass_enum (p : PropertySchema) (v : value) : step :=
  let typeValue := enum_members p in
  if negb (strict_eq VUndefined v)
     && negb (isValidEnumValue typeValue v (allowLabelsAsValue p))
  then
    Throw (Error ("Invalid ENUM given in property " +:+ name p +:+ ": "
                  +:+ to_string v +:+ ", valid: " +:+ join_values (enum_valids p)))
  else assign (getValidEnumValue typeValue v (allowLabelsAsValue p)).
End Enum.

Section Class.
Variable reg : Registry.
(** The compiled decoder and encoder of a schema ([xToClass.fn],
    [classToX.fn]) and the host's [JSON.parse]. *)
Variable xToClass : ClassSchema -> value -> result value.
Variable classToX : ClassSchema -> value -> result value.
Variable JSON_parse : string -> result value.

Definition no_schema : exn := Error "No class schema found".

(** [typeof v.slice] is ['function'] exactly for arrays and strings; the
    read itself fails on [null] and [undefined]. *)
Definition slice_is_function (v : value) : result bool :=
  match v with
  | VNull => Throw (TypeError "Cannot read property 'slice' of null")
  | VUndefined => Throw (TypeError "Cannot read property 'slice' of undefined")
  | VArr _ | VStr _ => Ok true
  | _ => Ok false
  end.

(** [fromClass.register('class')]: the encoder of the nested schema is
    called on whatever was read. *)
Definition fromClass_class (p : PropertySchema) (v : value) : step :=
  match getClassSchema reg (resolveClassType p) with
  | None => Throw no_schema
  | Some classSchema => r ← classToX classSchema v; assign r
  end.

(** [toClass.register('class')]. *)
Definition toClass_class (p : PropertySchema) (v : value) : step :=
  match getClassSchema reg (resolveClassType p) with
  | None => Throw no_schema
  | Some foreignSchema =>
      if bool_decide (is_Some (decorator foreignSchema)) then
        r ← xToClass foreignSchema v; assign r
      else
        isPlainObject ←
          (if bool_decide (typeof v = "object")
           then isArray ← slice_is_function v; Ok (negb isArray)
           else Ok false);
        if (isPlainObject : bool) then
          r ← xToClass foreignSchema v; assign r
        else if negb (isReference p) && bool_decide (typeof v = "string") then
          match v with
          | VStr s =>
              try_catch_ignore
                (parsed ← JSON_parse s; r ← xToClass foreignSchema parsed; assign r)
          | _ => untouched
          end
        else untouched
  end.
End Class.

(** A candidate of a union as [getSortedUnionTypes] hands it out. *)
Record UnionType : Type := {
  ut_property : PropertySchema;
  ut_guard : value -> bool;
}.

Section Union.
(** The sorter of union.ts and the per-property dispatcher of
    serializer-compiler.ts, the latter for the direction at hand. *)
Variable getSortedUnionTypes : PropertySchema -> list UnionType.
Variable getDataConverterJS : PropertySchema -> value -> step.

(** The text of the [throw] in the else branch, for a given content of
    [discriminants]. *)
Definition no_discriminant (discriminants : list string) : exn :=
  Error ("No valid discriminant was found, so could not determine class type. Guard tried: ["
         +:+ String.concat "," discriminants +:+ "].").

(** The chain [if (false) { } else if (guard(v)) { ... } ... else { ... }]. *)
Fixpoint run_discriminator (discriminator : list ((value -> bool) * (value -> step)))
    (elseBranch : step) (v : value) : step :=
  match discriminator with
  | [] => elseBranch
  | (guard, converter) :: rest =>
      if guard v then converter v else run_discriminator rest elseBranch v
  end.

(** The body shared, word for word, by [toClass.register('union')] and
    [fromClass.register('union')].  The else branch is fixed first, from
    [discriminants] as it is at that point; the loop then extends the chain
    and [discriminants] side by side. *)
Definition compile_union (p : PropertySchema) : (value -> step) * list string :=
  let discriminator : list ((value -> bool) * (value -> step)) := [] in
  let discriminants : list string := [] in
  let elseBranch : step := Throw (no_discriminant discriminants) in
  let elseBranch : step :=
    if isOptional p then untouched
    else if isNullable p then assign VNull
    else if hasManualDefaultValue p then assign (defaultValue p)
    else elseBranch in
  let '(discriminator, discriminants) :=
    fold_left
      (fun '(discriminator, discriminants) unionType =>
         (discriminator ++ [(ut_guard unionType,
                             getDataConverterJS (ut_property unionType))],
          discriminants ++ [type_name (type (ut_property unionType))]))
      (getSortedUnionTypes p) (discriminator, discriminants) in
  (run_discriminator discriminator elseBranch, discriminants).

(** What the compiled fragment does. *)
Definition union_step (p : PropertySchema) (v : value) : step :=
  (compile_union p).1 v.

(** [discriminants] once the loop is over. *)
Definition union_discriminants (p : PropertySchema) : list string :=
  (compile_union p).2.
End Union.

(** [toClass.register('union')] and [fromClass.register('union')]: the same
    body, each with the dispatcher of its own direction. *)
Definition toClass_union := union_step.
Definition fromClass_union := union_step.

Section EntryPoints.
(** [getXToClassFunction] and [getClassToXFunction] of jit.ts for the JSON
    serializer, [validate] of validation.ts and [getClassTypeFromInstance]
    of model.ts. *)
Variable getXToClassFunction : ClassSchema -> value -> result value.
Variable getClassToXFunction : ClassSchema -> value -> result value.
Variable validate : ClassSchema -> value -> list ValidationFailedItem.
Variable getClassTypeFromInstance : value -> result ClassSchema.

Definition classToPlain (schema : ClassSchema) (target : value) : result value :=
  getClassToXFunction schema target.

Definition plainToClass (schema : ClassSchema) (data : value) : result value :=
  getXToClassFunction schema data.

(** [if (errors.length) throw new ValidationFailed(errors)]. *)
Definition validatedPlainToClass (schema : ClassSchema) (data : value) : result value :=
  let errors := validate schema data in
  if negb (Nat.eqb (List.length errors) 0%nat) then Throw (ValidationFailed errors)
  else plainToClass schema data.

(** [s.deserialize(s.serialize(target))] for the scoped serializer [s] of
    the class of [target]. *)
Definition cloneClass (target : value) : result value :=
  s ← getClassTypeFromInstance target;
  plain ← getClassToXFunction s target;
  getXToClassFunction s plain.
End EntryPoints.

(** ** The host's [JSON.parse]

    A recursive-descent reader for the JSON of the value model: [null],
    booleans, integers, strings with the one-letter escapes, arrays and
    objects.  A literal with a fraction or an exponent, and a [\u] escape,
    are outside the value model and are not accepted.  A key given twice
    keeps its last value. *)

Definition quote_char : ascii := "034"%char.
Definition backslash_char : ascii := "092"%char.

Definition unescape (c : ascii) : option ascii :=
  if bool_decide (c = quote_char) then Some quote_char
  else if bool_decide (c = backslash_char) then Some backslash_char
  else match c with
       | "/"%char => Some "/"%char
       | "b"%char => Some "008"%char
       | "f"%char => Some "012"%char
       | "n"%char => Some "010"%char
       | "r"%char => Some "013"%char
       | "t"%char => Some "009"%char
       | _ => None
       end.

(** The rest of a string literal, after its opening quote. *)
Fixpoint read_string (acc : list ascii) (cs : list ascii) : option (string * list ascii) :=
  match cs with
  | [] => None
  | c :: rest =>
      if bool_decide (c = quote_char) then Some (string_of_list_ascii (rev acc), rest)
      else if bool_decide (c = backslash_char) then
        match rest with
        | e :: rest' =>
            match unescape e with
            | Some u => read_string (u :: acc) rest'
            | None => None
            end
        | [] => None
        end
      else if (nat_of_ascii c <? 32)%nat then None
      else read_string (c :: acc) rest
  end.

(** An integer literal: no leading zero before another digit, and nothing
    that would continue it into a fraction or an exponent. *)
Definition read_number (cs : list ascii) : option (Z * list ascii) :=
  match cs with
  | d :: rest =>
      match digit_of d with
      | Some d0 =>
          let '(n, rest') := read_digits 0 cs in
          let leading_zero :=
            bool_decide (d0 = 0) &&
            match rest with
            | d' :: _ => bool_decide (is_Some (digit_of d'))
            | [] => false
            end in
          let continues :=
            match rest' with
            | "."%char :: _ | "e"%char :: _ | "E"%char :: _ => true
            | _ => false
            end in
          if leading_zero || continues then None else Some (n, rest')
      | None => None
      end
  | [] => None
  end.

Fixpoint parse_value (fuel : nat) (cs : list ascii) : option (value * list ascii) :=
  match fuel with
  | O => None
  | S n =>
      match drop_spaces cs with
      | "n"%char :: "u"%char :: "l"%char :: "l"%char :: rest => Some (VNull, rest)
      | "t"%char :: "r"%char :: "u"%char :: "e"%char :: rest => Some (VBool true, rest)
      | "f"%char :: "a"%char :: "l"%char :: "s"%char :: "e"%char :: rest =>
          Some (VBool false, rest)
      | "["%char :: rest =>
          match drop_spaces rest with
          | "]"%char :: rest' => Some (VArr [], rest')
          | _ => '(items, rest') ← parse_elements n rest; Some (VArr items, rest')
          end
      | "{"%char :: rest =>
          match drop_spaces rest with
          | "}"%char :: rest' => Some (VObj None ∅, rest')
          | _ => '(fields, rest') ← parse_members n rest ∅; Some (VObj None fields, rest')
          end
      | "-"%char :: rest => '(k, rest') ← read_number rest; Some (VNum (- k), rest')
      | c :: rest =>
          if bool_decide (c = quote_char)
          then '(s, rest') ← read_string [] rest; Some (VStr s, rest')
          else '(k, rest') ← read_number (c :: rest); Some (VNum k, rest')
      | [] => None
      end
  end
with parse_elements (fuel : nat) (cs : list ascii) : option (list value * list ascii) :=
  match fuel with
  | O => None
  | S n =>
      '(v, rest) ← parse_value n cs;
      match drop_spaces rest with
      | ","%char :: rest' => '(vs, rest'') ← parse_elements n rest'; Some (v :: vs, rest'')
      | "]"%char :: rest' => Some ([v], rest')
      | _ => None
      end
  end
with parse_members (fuel : nat) (cs : list ascii) (acc : gmap string value)
    : option (gmap string value * list ascii) :=
  match fuel with
  | O => None
  | S n =>
      match drop_spaces cs with
      | q :: rest =>
          if bool_decide (q = quote_char) then
            '(k, rest1) ← read_string [] rest;
            match drop_spaces rest1 with
            | ":"%char :: rest2 =>
                '(v, rest3) ← parse_value n rest2;
                match drop_spaces rest3 with
                | ","%char :: rest4 => parse_members n rest4 (<[k:=v]> acc)
                | "}"%char :: rest4 => Some (<[k:=v]> acc, rest4)
                | _ => None
                end
            | _ => None
            end
          else None
      | [] => None
      end
  end.

Definition JSON_parse (s : string) : result value :=
  let cs := list_ascii_of_string s in
  match parse_value (2 * List.length cs + 2) cs with
  | Some (v, rest) =>
      match drop_spaces rest with
      | [] => Ok v
      | _ => Throw (SyntaxError "Unexpected token in JSON")
      end
  | None => Throw (SyntaxError "Unexpected token in JSON")
  end.

(** ** The enum helpers *)

(** Modelled from the spec: [getEnumValues] of @deepkit/core, which is not
    among the sources; the declared value set of the enum. *)
Definition getEnumValues (members : list (string * value)) : list value :=
  map snd members.

(** Modelled from the spec: [getEnumLabels] of @deepkit/core, which is not
    among the sources; the labels of the enum. *)
Definition getEnumLabels (members : list (string * value)) : list string :=
  map fst members.

(** Modelled from the spec: [isValidEnumValue] of @deepkit/core, which is not
    among the sources.  A value is valid when it is in the declared set, or,
    when labels are permitted, when it is one of the labels. *)
Definition isValidEnumValue (members : list (string * value)) (v : value)
    (allowLabels : bool) : bool :=
  (allowLabels && existsb (fun l => strict_eq (VStr l) v) (getEnumLabels members))
  || existsb (fun x => strict_eq x v) (getEnumValues members).

(** Modelled from the spec: [getValidEnumValue] of @deepkit/core, which is
    not among the sources.  A declared value stands for itself; a label, when
    labels are permitted, stands for the value of its member. *)
Definition getValidEnumValue (members : list (string * value)) (v : value)
    (allowLabels : bool) : value :=
  if existsb (fun x => strict_eq x v) (getEnumValues members) then v
  else if allowLabels then
    match find (fun m => strict_eq (VStr m.1) v) members with
    | Some m => m.2
    | None => VUndefined
    end
  else VUndefined.

(** ** The union resolver *)

Section Resolver.
Variable reg : Registry.

(** A property the input has to carry for the shape of a schema to be
    recognised: neither optional nor defaulted. *)
Definition required (q : PropertySchema) : bool :=
  negb (isOptional q) && negb (hasManualDefaultValue q).

(** Modelled from the spec: the nested-schema shape check among the guards
    of union.ts, which is not among the sources.  The input is an object
    that is no array; each required property is present, and a required
    literal property, the discriminant, holds its literal. *)
Definition shape_guard (schema : ClassSchema) (v : value) : bool :=
  match v with
  | VObj _ _ =>
      forallb
        (fun q =>
           negb (required q)
           || (if bool_decide (type q = t_literal)
               then strict_eq (literalValue q) (get_prop v (name q))
               else negb (strict_eq VUndefined (get_prop v (name q)))))
        (properties schema)
  | _ => false
  end.

(** Modelled from the spec: the guard of a union candidate (union.ts, not
    among the sources): a check of the primitive type, equality with the
    literal, or the shape check of the nested schema. *)
Fixpoint guard_of (q : PropertySchema) (v : value) : bool :=
  match q with
  | mkProperty _ t _ _ _ _ _ lit allowLabels cls args =>
      match t with
      | t_string => bool_decide (typeof v = "string")
      | t_number => bool_decide (typeof v = "number")
      | t_boolean => bool_decide (typeof v = "boolean")
      | t_literal => strict_eq lit v
      | t_enum =>
          isValidEnumValue
            (match cls with Some (EnumType members) => members | _ => [] end)
            v allowLabels
      | t_class =>
          match getClassSchema reg cls with
          | Some schema => shape_guard schema v
          | None => false
          end
      | t_union => existsb (fun c => guard_of c v) args
      | t_array => match v with VArr _ => true | _ => false end
      | t_map => match v with VObj _ _ => true | _ => false end
      end
  end.

(** A candidate that carries a discriminant: a literal, or a class with a
    required literal property. *)
Definition discriminant_bearing (q : PropertySchema) : bool :=
  match type q with
  | t_literal => true
  | t_class =>
      match getClassSchema reg (resolveClassType q) with
      | Some schema =>
          existsb (fun f => bool_decide (type f = t_literal) && required f)
                  (properties schema)
      | None => false
      end
  | _ => false
  end.

(** Modelled from the spec: [getSortedUnionTypes] of union.ts, which is not
    among the sources.  The candidates of the union, most specific first:
    those that carry a discriminant before the generic ones, each group in
    declaration order, every candidate with its guard. *)
Definition getSortedUnionTypes (p : PropertySchema) : list UnionType :=
  map (fun q => {| ut_property := q; ut_guard := guard_of q |})
      (filter (fun q => discriminant_bearing q = true) (templateArgs p)
       ++ filter (fun q => discriminant_bearing q = false) (templateArgs p)).
End Resolver.

(** ** The pipelines *)

(** Modelled from the spec: the default handling of [getDataConverterJS]
    (serializer-compiler.ts, not among the sources) for an absent value: the
    configured default if there is one, otherwise the output is left
    unset. *)
Definition defaultHandling (p : PropertySchema) : step :=
  if hasManualDefaultValue p then assign (defaultValue p) else untouched.

(** Modelled from the spec: the handling of [null] in [getDataConverterJS]
    (serializer-compiler.ts, not among the sources): [null] passes through
    for a nullable property without the type step being run, and is treated
    as absent otherwise. *)
Definition nullHandling (p : PropertySchema) : step :=
  if isNullable p then assign VNull else defaultHandling p.

(** Modelled from the spec: the element loop of [getDataConverterJS] for an
    array (serializer-compiler.ts, not among the sources): the elements are
    converted in order into a new array; an element whose step leaves it
    unset stays [undefined]; an input that is no array leaves the output
    unset. *)
Definition convertArray (convert : value -> step) (v : value) : step :=
  match v with
  | VArr items =>
      items' ← mapM (fun x => r ← convert x; Ok (default VUndefined r)) items;
      assign (VArr items')
  | _ => untouched
  end.

Definition convertEntry (convert : value -> step) (k : string) (x : value)
    (acc : result (gmap string value)) : result (gmap string value) :=
  out ← acc;
  r ← convert x;
  Ok (match r with Some y => <[k:=y]> out | None => out end).

(** Modelled from the spec: the key loop of [getDataConverterJS] for a map
    (serializer-compiler.ts, not among the sources): every entry is converted
    into a new plain object under its key; an input that is no object leaves
    the output unset. *)
Definition convertMap (convert : value -> step) (v : value) : step :=
  match v with
  | VObj _ fields =>
      out ← map_fold (convertEntry convert) (Ok ∅) fields;
      assign (VObj None out)
  | _ => untouched
  end.

(** The element type of an array or a map ([property.getSubType()]). *)
Definition getSubType (p : PropertySchema) : result PropertySchema :=
  match templateArgs p with
  | sub :: _ => Ok sub
  | [] => Throw (Error "No template type")
  end.

(** The field loop of a pipeline: each property of the schema, in
    declaration order, reads its key of [data] and writes its key of the
    output. *)
Fixpoint populate (convert : PropertySchema -> value -> step) (data : value)
    (props : list PropertySchema) (out : gmap string value)
    : result (gmap string value) :=
  match props with
  | [] => Ok out
  | q :: rest =>
      r ← convert q (get_prop data (name q));
      populate convert data rest
        (match r with Some x => <[name q := x]> out | None => out end)
  end.

(** Modelled from the spec: the pipeline [getXToClassFunction] or
    [getClassToXFunction] assembles (jit.ts, not among the sources): a new
    value, an instance of the class when decoding and a plain object when
    encoding, populated by the field loop.  Reading a field of [null] or
    [undefined] is a [TypeError]. *)
Definition runPipeline (cls : option string)
    (convert : PropertySchema -> value -> step)
    (schema : ClassSchema) (data : value) : result value :=
  match data with
  | VUndefined | VNull => Throw (TypeError "Cannot read property of undefined")
  | _ =>
      out ← populate convert data (properties schema) ∅;
      Ok (VObj cls out)
  end.

Section Jit.
Variable reg : Registry.

(** Modelled from the spec: [getDataConverterJS] of serializer-compiler.ts
    (not among the sources) in the decoding direction of the JSON
    serializer.  An absent value and [null] get the default handling, after
    the prepended hooks; any other value goes to the compiler registered
    for the type tag.  The recursion budget bounds the nesting of the
    calls. *)
Fixpoint toClassConverter (fuel : nat) (p : PropertySchema) (v : value) : step :=
  match fuel with
  | O => OutOfFuel
  | S n =>
      match v with
      | VUndefined => default (defaultHandling p) (toClass_prepend_undefined p)
      | VNull => default (nullHandling p) (toClass_prepend_null p)
      | _ =>
          match type p with
          | t_string => compilerToString p v
          | t_number => compilerToNumber p v
          | t_boolean => toClass_boolean p v
          | t_literal => toClass_literal p v
          | t_enum =>
              toClass_enum isValidEnumValue getEnumValues getEnumLabels
                getValidEnumValue p v
          | t_class =>
              toClass_class reg
                (fun s => runPipeline (Some (schemaName s)) (toClassConverter n) s)
                JSON_parse p v
          | t_union =>
              toClass_union (getSortedUnionTypes reg) (toClassConverter n) p v
          | t_array => sub ← getSubType p; convertArray (toClassConverter n sub) v
          | t_map => sub ← getSubType p; convertMap (toClassConverter n sub) v
          end
      end
  end.

(** Modelled from the spec: [getDataConverterJS] of serializer-compiler.ts
    (not among the sources) in the encoding direction of the JSON
    serializer, which registers compilers for numbers, classes and unions;
    a value of a type without a compiler is copied. *)
Fixpoint fromClassConverter (fuel : nat) (p : PropertySchema) (v : value) : step :=
  match fuel with
  | O => OutOfFuel
  | S n =>
      match v with
      | VUndefined => defaultHandling p
      | VNull => nullHandling p
      | _ =>
          match type p with
          | t_number => compilerToNumber p v
          | t_class =>
              fromClass_class reg
                (fun s => runPipeline None (fromClassConverter n) s) p v
          | t_union =>
              fromClass_union (getSortedUnionTypes reg) (fromClassConverter n) p v
          | t_array => sub ← getSubType p; convertArray (fromClassConverter n sub) v
          | t_map => sub ← getSubType p; convertMap (fromClassConverter n sub) v
          | t_string | t_boolean | t_literal | t_enum => assign v
          end
      end
  end.

(** Modelled from the spec: [getXToClassFunction] of jit.ts (not among the
    sources) for the JSON serializer. *)
Definition getXToClassFunction (fuel : nat) (schema : ClassSchema) (data : value)
    : result value :=
  runPipeline (Some (schemaName schema)) (toClassConverter fuel) schema data.

(** Modelled from the spec: [getClassToXFunction] of jit.ts (not among the
    sources) for the JSON serializer. *)
Definition getClassToXFunction (fuel : nat) (schema : ClassSchema) (target : value)
    : result value :=
  runPipeline None (fromClassConverter fuel) schema target.

(** Modelled from the spec: [getClassTypeFromInstance] of model.ts (not
    among the sources): the schema of the class of an instance. *)
Definition getClassTypeFromInstance (target : value) : result ClassSchema :=
  match target with
  | VObj (Some c) _ =>
      match reg !! c with
      | Some s => Ok s
      | None => Throw no_schema
      end
  | _ => Throw (Error "Target does not seem to be a class instance.")
  end.
End Jit.

(** ** The validator *)

Definition fieldError (p : PropertySchema) (c m : string) : ValidationFailedItem :=
  {| path := name p; code := c; message := m |}.

(** Modelled from the spec: the chain of one field in the validation
    pipeline (jit-validation.ts, not among the sources): the required-ness
    check, then the check of the shape of the type; the first failing rule
    ends the chain of the field.  Custom rules are not part of the property
    model and nested values are not descended into. *)
Definition validateProperty (p : PropertySchema) (v : value) : option ValidationFailedItem :=
  match v with
  | VUndefined =>
      if isOptional p || hasManualDefaultValue p then None
      else Some (fieldError p "required" "Required value is undefined")
  | VNull =>
      if isNullable p || isOptional p || hasManualDefaultValue p then None
      else Some (fieldError p "required" "Required value is null")
  | _ =>
      match type p with
      | t_string =>
          if bool_decide (typeof v = "string") then None
          else Some (fieldError p "invalid_string" "No string given")
      | t_number =>
          if bool_decide (typeof v = "number") then None
          else Some (fieldError p "invalid_number" "No number given")
      | t_boolean =>
          if bool_decide (typeof v = "boolean") then None
          else Some (fieldError p "invalid_boolean" "No boolean given")
      | t_array =>
          match v with
          | VArr _ => None
          | _ => Some (fieldError p "invalid_type" "Type is not an array")
          end
      | t_map | t_class =>
          match v with
          | VObj _ _ => None
          | _ => Some (fieldError p "invalid_type" "Type is not an object")
          end
      | t_literal | t_enum | t_union => None
      end
  end.

(** Modelled from the spec: [validate] of validation.ts (not among the
    sources): every field is checked, in declaration order, and the errors
    are collected in a list. *)
Definition validate (schema : ClassSchema) (data : value) : list ValidationFailedItem :=
  omap (fun p => validateProperty p (get_prop data (name p))) (properties schema).

(** ** The two sides of a conversion *)

(** The entity, whose objects are instances
    of their classes, and the plain value, whose objects are literals. *)
Inductive Side : Type := Entity | Plain.

(** The class tag an object of a schema carries on a side. *)
Definition tag_of (side : Side) (schema : ClassSchema) : option string :=
  match side with
  | Entity => Some (schemaName schema)
  | Plain => None
  end.

(** ** Schemas and inputs of the examples *)

Module Examples.

Definition withDefault (d : value) (p : PropertySchema) : PropertySchema :=
  {| name := name p; type := type p; isOptional := isOptional p;
     isNullable := isNullable p; isReference := isReference p;
     hasManualDefaultValue := true; defaultValue := d;
     literalValue := literalValue p; allowLabelsAsValue := allowLabelsAsValue p;
     resolveClassType := resolveClassType p; templateArgs := templateArgs p |}.

Definition literal (n : string) (lit : value) : PropertySchema :=
  {| name := n; type := t_literal; isOptional := false; isNullable := false;
     isReference := false; hasManualDefaultValue := false;
     defaultValue := VUndefined; literalValue := lit;
     allowLabelsAsValue := false; resolveClassType := None;
     templateArgs := [] |}.

Definition classProperty (n : string) (c : string) (reference : bool) : PropertySchema :=
  {| name := n; type := t_class; isOptional := false; isNullable := false;
     isReference := reference; hasManualDefaultValue := false;
     defaultValue := VUndefined; literalValue := VUndefined;
     allowLabelsAsValue := false; resolveClassType := Some (ClassRef c);
     templateArgs := [] |}.

Definition union (n : string) (candidates : list PropertySchema) : PropertySchema :=
  {| name := n; type := t_union; isOptional := false; isNullable := false;
     isReference := false; hasManualDefaultValue := false;
     defaultValue := VUndefined; literalValue := VUndefined;
     allowLabelsAsValue := false; resolveClassType := None;
     templateArgs := candidates |}.

Definition enum (n : string) (members : list (string * value)) (labels : bool)
    : PropertySchema :=
  {| name := n; type := t_enum; isOptional := false; isNullable := false;
     isReference := false; hasManualDefaultValue := false;
     defaultValue := VUndefined; literalValue := VUndefined;
     allowLabelsAsValue := labels; resolveClassType := Some (EnumType members);
     templateArgs := [] |}.

(** [t.schema({id: t.number.primary.autoIncrement, category: t.string,
    title: t.string, price: t.number, rating: t.number.default(0)},
    {name: 'Product'})]. *)
Definition product : ClassSchema :=
  {| schemaName := "Product"; decorator := None;
     properties :=
       [ property "id" t_number;
         property "category" t_string;
         property "title" t_string;
         property "price" t_number;
         withDefault (VNum 0) (property "rating" t_number) ] |}.

(** [{category: 'toys', title: 'Car', price: 499}]. *)
Definition car : value :=
  VObj None
    (<["category" := VStr "toys"]>
       (<["title" := VStr "Car"]> (<["price" := VNum 499]> ∅))).

(** A schema with one required number [x]. *)
Definition point : ClassSchema :=
  {| schemaName := "Point"; decorator := None;
     properties := [ property "x" t_number ] |}.

(** A schema with one nested [Point], [start]. *)
Definition segment : ClassSchema :=
  {| schemaName := "Segment"; decorator := None;
     properties := [ classProperty "start" "Point" false ] |}.

Definition registry : Registry :=
  <["Product" := product]> (<["Point" := point]> (<["Segment" := segment]> ∅)).

Definition candidateA : PropertySchema := literal "kind" (VStr "a").
Definition candidateB : PropertySchema := literal "kind" (VStr "b").
Definition candidateShape : PropertySchema := classProperty "kind" "Point" false.

(** The union of the literals ["a"] and ["b"]. *)
Definition unionAB : PropertySchema := union "kind" [candidateA; candidateB].

(** The union of the literals ["a"], ["b"] and the shape [{x: number}]. *)
Definition unionABShape : PropertySchema :=
  union "kind" [candidateA; candidateB; candidateShape].

(** [{x: 5}]. *)
Definition x5 : value := VObj None (<["x" := VNum 5]> ∅).

Definition quoted (s : string) : string :=
  String quote_char s +:+ String quote_char "".

(** The text [{"x":5}]. *)
Definition x5_text : string := "{" +:+ quoted "x" +:+ ":5}".

(** [enum Color { Red = 'r', Green = 'g' }]. *)
Definition color : list (string * value) := [("Red", VStr "r"); ("Green", VStr "g")].

Definition withNullable (p : PropertySchema) : PropertySchema :=
  {| name := name p; type := type p; isOptional := isOptional p;
     isNullable := true; isReference := isReference p;
     hasManualDefaultValue := hasManualDefaultValue p;
     defaultValue := defaultValue p; literalValue := literalValue p;
     allowLabelsAsValue := allowLabelsAsValue p;
     resolveClassType := resolveClassType p; templateArgs := templateArgs p |}.

Definition withSubType (sub : PropertySchema) (p : PropertySchema) : PropertySchema :=
  {| name := name p; type := type p; isOptional := isOptional p;
     isNullable := isNullable p; isReference := isReference p;
     hasManualDefaultValue := hasManualDefaultValue p;
     defaultValue := defaultValue p; literalValue := literalValue p;
     allowLabelsAsValue := allowLabelsAsValue p;
     resolveClassType := resolveClassType p; templateArgs := [sub] |}.

(** A schema with a string, a nullable number, an array of points, a map of
    colors, a nested point and a boolean. *)
Definition drawing : ClassSchema :=
  {| schemaName := "Drawing"; decorator := None;
     properties :=
       [ property "title" t_string;
         withNullable (property "layer" t_number);
         withSubType (classProperty "points" "Point" false) (property "points" t_array);
         withSubType (enum "palette" color true) (property "palette" t_map);
         classProperty "origin" "Point" false;
         property "visible" t_boolean ] |}.

Definition studio : Registry := <["Drawing" := drawing]> registry.

Definition pointAt (side : Side) (x : Z) : value :=
  VObj (tag_of side point) (<["x" := VNum x]> ∅).

(** A drawing without its [visible] flag, as an entity or as plain data. *)
Definition sketch (side : Side) : value :=
  VObj (tag_of side drawing)
    (<["title" := VStr "sketch"]>
       (<["layer" := VNull]>
          (<["points" := VArr [pointAt side 1; pointAt side 2]]>
             (<["palette" := VObj None (<["ink" := VStr "r"]> (<["leaf" := VStr "g"]> ∅))]>
                (<["origin" := pointAt side 0]> ∅))))).

End Examples.


(** ** Vocabulary of the statements *)

(** The chain the loop of a union builds from a list of candidates, for a
    given dispatcher. *)
Definition chain_of (convert : PropertySchema -> value -> step) (l : list UnionType)
    : list ((value -> bool) * (value -> step)) :=
  map (fun u => (ut_guard u, convert (ut_property u))) l.

(** The else branch of a union, as the compiler fixes it before the loop. *)
Definition fallback_of (p : PropertySchema) : step :=
  if isOptional p then untouched
  else if isNullable p then assign VNull
  else if hasManualDefaultValue p then assign (defaultValue p)
  else Throw (no_discriminant []).

(** What the fallback of a union has to be, by the flags of the field. *)
Definition union_fallback (p : PropertySchema) (r : step) : Prop :=
  (isOptional p = true -> r = untouched)
  /\ (isOptional p = false -> isNullable p = true -> r = assign VNull)
  /\ (isOptional p = false -> isNullable p = false ->
      hasManualDefaultValue p = true -> r = assign (defaultValue p))
  /\ (isOptional p = false -> isNullable p = false ->
      hasManualDefaultValue p = false -> exists e, r = Throw e).

(** Substring test, for reading error messages. *)
Definition contains (needle hay : string) : bool :=
  bool_decide (is_Some (String.index 0 needle hay)).

(** No candidate of the list accepts the value. *)
Definition no_guard_matches (l : list UnionType) (v : value) : Prop :=
  Forall (fun u => ut_guard u v = false) l.


(** The failure of a union is the fixed text around a list of guards. *)
Definition unmatched_union (r : step) : Prop :=
  exists tried : string,
    r = Throw (Error ("No valid discriminant was found, so could not determine class type. Guard tried: ["
                      +:+ tried +:+ "].")).

(** The failure of a union as the specification words it: an error whose
    message names the field and lists the candidates that were tried, be it
    by their type tags or, for literals, by their values. *)
Definition names_field_and_candidates (p : PropertySchema) (tried : string)
    (r : step) : Prop :=
  exists m : string,
    r = Throw (Error m) /\ contains (name p) m = true /\ contains tried m = true.

(** A string on a nested-schema field as the specification words it: always
    read as JSON and decoded, with any failure swallowed. *)
Definition string_read_as_json (xToClass : ClassSchema -> value -> result value)
    (parse : string -> result value) (schema : ClassSchema) (s : string)
    (r : step) : Prop :=
  r = try_catch_ignore (parsed ← parse s; e ← xToClass schema parsed; assign e).

(** The text of the enum error for a given field, input and valid set. *)
Definition invalid_enum (p : PropertySchema) (v : value) (valids : list value) : exn :=
  Error ("Invalid ENUM given in property " +:+ name p +:+ ": " +:+ to_string v
         +:+ ", valid: " +:+ join_values valids).

(** ** Well-formed values *)

(** A property the pipelines fill in when its key is absent. *)
Definition filled_when_absent (q : PropertySchema) : bool :=
  hasManualDefaultValue q || (bool_decide (type q = t_literal) && negb (isOptional q)).

(** A check that also rules out [undefined]. *)
Definition defined_and (check : value -> bool) (x : value) : bool :=
  match x with
  | VUndefined => false
  | _ => check x
  end.

(** An object of a schema without a decorator, on the given side: it has the
    tag of its side, the property names of the schema are distinct, every key
    is one of them, no key holds [undefined], and the slot of every property
    is well formed. *)
Definition wellFormedFields (wf : PropertySchema -> value -> bool) (side : Side)
    (schema : ClassSchema) (v : value) : bool :=
  match v with
  | VObj c fields =>
      bool_decide (decorator schema = None)
      && bool_decide (c = tag_of side schema)
      && bool_decide (NoDup (map name (properties schema)))
      && bool_decide (dom fields ⊆ list_to_set (map name (properties schema)))
      && forallb
           (fun q =>
              match fields !! name q with
              | Some VUndefined => false
              | slot => wf q (default VUndefined slot)
              end)
           (properties schema)
  | _ => false
  end.

(** The content of the slot of a property, [undefined] standing for an
    absent one, is well formed on the given side: an absent slot belongs to a
    property that is not filled in, [null] to a nullable one; a string,
    number or boolean has the type of the property; an enum holds one of the
    declared values; an array or a map holds well-formed elements; a nested
    entity is a well-formed object of its schema.  The budget bounds the
    nesting, as it does for the pipelines. *)
Fixpoint wellFormed (reg : Registry) (side : Side) (fuel : nat)
    (p : PropertySchema) (v : value) : bool :=
  match fuel with
  | O => false
  | S n =>
      match v with
      | VUndefined => negb (filled_when_absent p)
      | VNull => isNullable p
      | _ =>
          match type p with
          | t_string => match v with VStr _ => true | _ => false end
          | t_number => match v with VNum _ => true | _ => false end
          | t_boolean => match v with VBool _ => true | _ => false end
          | t_enum => existsb (fun x => strict_eq x v) (getEnumValues (enum_members p))
          | t_array =>
              match v, templateArgs p with
              | VArr items, sub :: _ => forallb (wellFormed reg side n sub) items
              | _, _ => false
              end
          | t_map =>
              match v, templateArgs p with
              | VObj None fields, sub :: _ =>
                  bool_decide
                    (map_Forall
                       (fun _ x => defined_and (wellFormed reg side n sub) x = true)
                       fields)
              | _, _ => false
              end
          | t_class =>
              match getClassSchema reg (resolveClassType p) with
              | Some schema => wellFormedFields (wellFormed reg side n) side schema v
              | None => false
              end
          | t_literal | t_union => false
          end
      end
  end.

(** A value survives [first] followed by [second]: an absent slot stays
    absent, anything else is assigned by [first] and restored by [second]. *)
Definition round_trips (first second : value -> step) (v : value) : Prop :=
  match v with
  | VUndefined => first VUndefined = untouched /\ second VUndefined = untouched
  | _ => exists w, first v = assign w /\ second w = assign v
  end.

(** What a step assigns, if it ends well and assigns at all. *)
Definition assigned (r : step) : option value :=
  match r with
  | Ok o => o
  | _ => None
  end.

(** The output of the field loop when every property [q] assigns [g q]. *)
Definition fill (g : PropertySchema -> option value) (props : list PropertySchema)
    (out : gmap string value) : gmap string value :=
  fold_left
    (fun m q => match g q with Some x => <[name q := x]> m | None => m end)
    props out.

(** The converter that runs first, and the one that runs second, when a
    value of the given side makes its round trip. *)
Definition outward (reg : Registry) (side : Side) : nat -> PropertySchema -> value -> step :=
  match side with
  | Entity => fromClassConverter reg
  | Plain => toClassConverter reg
  end.

Definition homeward (reg : Registry) (side : Side) : nat -> PropertySchema -> value -> step :=
  match side with
  | Entity => toClassConverter reg
  | Plain => fromClassConverter reg
  end.

(** The other side. *)
Definition across (side : Side) : Side :=
  match side with
  | Entity => Plain
  | Plain => Entity
  end.

(** ** The MySQL adapter (mysql-adapter.ts)

    The methods are [async]: each ends by resolving or by rejecting.  The
    driver's answer to [connection.query] is an argument, the logger is the
    list of what it was told, and the objects the persistence layer writes to
    live in a heap, addressed by their identity, so that one object listed
    twice is one object. *)

Inductive settled (A : Type) : Type :=
| Resolved (a : A)
| Rejected (e : exn).
Arguments Resolved {A} a.
Arguments Rejected {A} e.

(** The packet the driver returns for a statement that writes. *)
Record UpsertResult : Type := {
  affectedRows : Z;
  insertId : Z;
  warningStatus : Z;
}.

(** What [connection.query] resolves to for a write: one packet, or an array
    of packets for a batch. *)
Inductive QueryResult : Type :=
| Single (r : UpsertResult)
| Batch (rs : list UpsertResult).

(** A call of the logger: [logQuery] or [failedQuery]. *)
Inductive LogEntry : Type :=
| LogQuery (sql : string) (params : list value)
| FailedQuery (error : exn) (sql : string) (params : list value).

Module MySQLStatement.

(** [get]: the first row of the answer, [undefined] when there is none. *)
Definition get (log : list LogEntry) (sql : string) (params : list value)
    (query : settled (list value)) : list LogEntry * settled value :=
  match query with
  | Resolved rows => (log ++ [LogQuery sql params], Resolved (default VUndefined (head rows)))
  | Rejected error => (log ++ [FailedQuery error sql params], Rejected error)
  end.

(** [all]: the rows of the answer. *)
Definition all (log : list LogEntry) (sql : string) (params : list value)
    (query : settled (list value)) : list LogEntry * settled (list value) :=
  match query with
  | Resolved rows => (log ++ [LogQuery sql params], Resolved rows)
  | Rejected error => (log ++ [FailedQuery error sql params], Rejected error)
  end.

End MySQLStatement.

Module MySQLConnection.

(** The fields of a connection that its methods read and write, with the
    log of its logger. *)
Record t : Type := {
  changes : Z;
  lastExecResult : option (list UpsertResult);
  log : list LogEntry;
}.

(** A connection as its constructor leaves it. *)
Definition fresh : t := {| changes := 0; lastExecResult := None; log := [] |}.

(** [run]: [isArray(res) ? res : [res]] becomes [lastExecResult]; a
    rejection is logged and thrown again. *)
Definition run (c : t) (sql : string) (params : list value)
    (query : settled QueryResult) : t * settled unit :=
  match query with
  | Resolved res =>
      ({| changes := changes c;
          lastExecResult := Some (match res with Batch rs => rs | Single r => [r] end);
          log := log c ++ [LogQuery sql params] |},
       Resolved tt)
  | Rejected error =>
      ({| changes := changes c;
          lastExecResult := lastExecResult c;
          log := log c ++ [FailedQuery error sql params] |},
       Rejected error)
  end.

Definition getChanges (c : t) : settled Z := Resolved (changes c).

End MySQLConnection.

Module MySQLPersistence.

(** The objects of the heap, by identity; an object is its own properties. *)
Abbreviation Heap := (gmap nat (gmap string value)).

(** The loop [for (const item of items) item[name] = start++]. *)
Fixpoint assignIds (field : string) (start : Z) (items : list nat) (heap : Heap) : Heap :=
  match items with
  | [] => heap
  | item :: rest =>
      assignIds field (start + 1) rest (alter (insert field (VNum start)) item heap)
  end.

(** [populateAutoIncrementFields], for the auto-increment field of the schema
    ([getAutoIncrementField()], if any) and the [lastExecResult] of the
    connection: the heap after the call, or the rejection. *)
Definition populateAutoIncrementFields (autoIncrement : option PropertySchema)
    (lastExecResult : option (list UpsertResult)) (items : list nat) (heap : Heap)
    : settled Heap :=
  match autoIncrement with
  | None => Resolved heap
  | Some field =>
      match lastExecResult with
      | None | Some [] => Rejected (Error "No lastBatchResult found")
      | Some (result :: _) => Resolved (assignIds (name field) (insertId result) items heap)
      end
  end.

(** *** The value table of [batchUpdate]

    An object is the list of its own enumerable properties in the order of
    their insertion, each key once; [for ... in] visits the keys that are
    array indices first, in ascending order, and then the others as they were
    inserted. *)

Fixpoint obj_get {A : Type} (o : list (string * A)) (k : string) : option A :=
  match o with
  | [] => None
  | (k', x) :: rest => if bool_decide (k' = k) then Some x else obj_get rest k
  end.

(** [o[k] = x]: in place for a key the object has, at the end otherwise. *)
Fixpoint obj_set {A : Type} (o : list (string * A)) (k : string) (x : A)
    : list (string * A) :=
  match o with
  | [] => [(k, x)]
  | (k', y) :: rest =>
      if bool_decide (k' = k) then (k, x) :: rest else (k', y) :: obj_set rest k x
  end.

(** The number a key stands for when it is an array index: a decimal
    numeral without a leading zero, below [2^32 - 1]. *)
Definition array_index (k : string) : option Z :=
  match list_ascii_of_string k with
  | [] => None
  | d :: rest =>
      if forallb (fun c => bool_decide (is_Some (digit_of c))) (d :: rest)
         && (bool_decide (rest = []) || negb (bool_decide (digit_of d = Some 0)))
      then
        let n := (read_digits 0 (d :: rest)).1 in
        if n <? 4294967295 then Some n else None
      else None
  end.

Fixpoint insert_index (x : Z * string) (l : list (Z * string)) : list (Z * string) :=
  match l with
  | [] => [x]
  | y :: rest => if x.1 <=? y.1 then x :: l else y :: insert_index x rest
  end.

(** The keys of an object in the order [for ... in] visits them. *)
Definition forIn {A : Type} (o : list (string * A)) : list string :=
  let keys := map fst o in
  map snd
    (foldr insert_index []
       (omap (fun k => n ← array_index k; Some (n, k)) keys))
  ++ filter (fun k => array_index k = None) keys.

(** A change set of the persistence layer: the primary key of the item, the
    [$set] and [$inc] of its changes, if any, and the item itself. *)
Record ChangeSet : Type := {
  primaryKey : list (string * value);
  changes_set : option (list (string * value));
  changes_inc : option (list (string * value));
  item : nat;
}.

(** The accumulators of [batchUpdate]. *)
Record Batch : Type := {
  values : list (string * list string);
  setNames : list string;
  aggregateSelects : list (string * list (value * string));
  requiredFields : list (string * Z);
  assignReturning : list (string * (nat * list string));
  setReturning : list (string * Z);
}.

Section BatchUpdate.
(** The scoped serializer, the escaping of the platform, the table and the
    name of the primary field. *)
Variable partialSerialize : list (string * value) -> list (string * value).
Variable quoteValue : value -> string.
Variable quoteIdentifier : string -> string.
Variable tableName : string.
Variable pkName : string.

(** [if (!values[i]) { values[i] = []; setNames.push(...) }]. *)
Definition ensureColumn (b : Batch) (i : string) : Batch :=
  match obj_get (values b) i with
  | Some _ => b
  | None =>
      {| values := obj_set (values b) i [];
         setNames := setNames b
                     ++ [tableName +:+ "." +:+ quoteIdentifier i +:+ " = _b."
                         +:+ quoteIdentifier i];
         aggregateSelects := aggregateSelects b;
         requiredFields := requiredFields b;
         assignReturning := assignReturning b;
         setReturning := setReturning b |}
  end.

(** [values[i].push(x)], for a column that exists. *)
Definition pushValue (b : Batch) (i : string) (x : string) : Batch :=
  {| values := obj_set (values b) i (default [] (obj_get (values b) i) ++ [x]);
     setNames := setNames b;
     aggregateSelects := aggregateSelects b;
     requiredFields := requiredFields b;
     assignReturning := assignReturning b;
     setReturning := setReturning b |}.

(** [requiredFields[i] = 1]. *)
Definition requireField (b : Batch) (i : string) : Batch :=
  {| values := values b;
     setNames := setNames b;
     aggregateSelects := aggregateSelects b;
     requiredFields := obj_set (requiredFields b) i 1;
     assignReturning := assignReturning b;
     setReturning := setReturning b |}.

(** The bookkeeping of one incremented field: its list of aggregate selects,
    the names to read back for the item with this id, and [setReturning]. *)
Definition noteIncrement (b : Batch) (cs : ChangeSet) (id : value) (i : string)
    (amount : value) : Batch :=
  let selects := default [] (obj_get (aggregateSelects b) i) in
  let key := to_string id in
  let r := default (item cs, []) (obj_get (assignReturning b) key) in
  {| values := values b;
     setNames := setNames b;
     aggregateSelects :=
       obj_set (aggregateSelects b) i
         (selects ++ [(id, "_origin." +:+ quoteIdentifier i +:+ " + " +:+ quoteValue amount)]);
     requiredFields := requiredFields b;
     assignReturning := obj_set (assignReturning b) key (r.1, r.2 ++ [i]);
     setReturning := obj_set (setReturning b) i 1 |}.

(** The body of the loop over the properties of [$set]. *)
Definition setStep (acc : Batch * list (string * Z)) (entry : string * value)
    : Batch * list (string * Z) :=
  let '(b, fieldAddedToValues) := acc in
  let '(i, x) := entry in
  (pushValue (requireField (ensureColumn b i) i) i (quoteValue x),
   obj_set fieldAddedToValues i 1).

(** The body of the loop over the properties of [$inc]. *)
Definition incStep (cs : ChangeSet) (id : value)
    (acc : Batch * list (string * Z)) (entry : string * value)
    : Batch * list (string * Z) :=
  let '(b, fieldAddedToValues) := acc in
  let '(i, amount) := entry in
  let b := noteIncrement (ensureColumn b i) cs id i amount in
  let b := requireField b i in
  match obj_get fieldAddedToValues i with
  | Some _ => (b, fieldAddedToValues)
  | None => (pushValue b i (quoteValue VNull), obj_set fieldAddedToValues i 1)
  end.

(** The body of the loop over the change sets.  (The list [where] the loop
    also fills is never read.) *)
Definition changeSetStep (b : Batch) (cs : ChangeSet) : Batch :=
  let pk := partialSerialize (primaryKey cs) in
  let b := fold_left requireField (forIn pk) b in
  let b :=
    match obj_get (values b) pkName with
    | Some _ => b
    | None =>
        {| values := obj_set (values b) pkName [];
           setNames := setNames b;
           aggregateSelects := aggregateSelects b;
           requiredFields := requiredFields b;
           assignReturning := assignReturning b;
           setReturning := setReturning b |}
    end in
  let id := default VUndefined (obj_get (primaryKey cs) pkName) in
  let b := pushValue b pkName (quoteValue id) in
  let fieldAddedToValues : list (string * Z) := [] in
  let '(b, fieldAddedToValues) :=
    match changes_set cs with
    | Some set =>
        let value := partialSerialize set in
        fold_left setStep
          (omap (fun i => x ← obj_get value i; Some (i, x)) (forIn value))
          (b, fieldAddedToValues)
    | None => (b, fieldAddedToValues)
    end in
  match changes_inc cs with
  | Some inc =>
      (fold_left (incStep cs id)
         (omap (fun i => x ← obj_get inc i; Some (i, x)) (forIn inc))
         (b, fieldAddedToValues)).1
  | None => b
  end.

Definition emptyBatch : Batch :=
  {| values := []; setNames := []; aggregateSelects := []; requiredFields := [];
     assignReturning := []; setReturning := [] |}.

(** The accumulators after the loop over the change sets. *)
Definition collectChanges (changeSets : list ChangeSet) : Batch :=
  fold_left changeSetStep changeSets emptyBatch.

(** The first half of [batchUpdate]: the names of the columns and the rows
    of the [VALUES] list, one [ROW(...)] per entry of the column of the
    primary key; an entry a column lacks is [undefined] and prints as
    nothing.  Without that column, reading its length is a [TypeError]. *)
Definition batchUpdateRows (changeSets : list ChangeSet)
    : settled (list string * list string) :=
  let b := collectChanges changeSets in
  let valuesNames := forIn (values b) in
  match obj_get (values b) pkName with
  | None => Rejected (TypeError "Cannot read property 'length' of undefined")
  | Some column =>
      Resolved
        (valuesNames,
         map (fun i =>
                "ROW("
                +:+ String.concat ","
                      (map (fun name =>
                              default "" (default [] (obj_get (values b) name) !! i))
                         valuesNames)
                +:+ ")")
             (seq 0 (List.length column)))
  end.
End BatchUpdate.

End MySQLPersistence.

(** ** Vocabulary of the further statements *)

(** The values other than booleans the boolean decoder understands. *)
Definition boolean_spellings : list value :=
  [VStr "true"; VStr "1"; VNum 1; VStr "false"; VStr "0"; VNum 0].

(** A connection after a sequence of calls of [run], each with its
    statement, its parameters and the answer of the driver. *)
Definition runAll (c : MySQLConnection.t)
    (calls : list (string * list value * settled QueryResult)) : MySQLConnection.t :=
  fold_left (fun c '(sql, params, query) => (MySQLConnection.run c sql params query).1)
    calls c.

(** The packets of the last call that the driver answered, if any. *)
Definition lastResolved (calls : list (string * list value * settled QueryResult))
    : option (list UpsertResult) :=
  fold_left
    (fun found '(_, _, query) =>
       match query with
       | Resolved (Single r) => Some [r]
       | Resolved (Batch rs) => Some rs
       | Rejected _ => found
       end)
    calls None.

(** The column of a field in the value table, empty when there is none. *)
Definition column (b : MySQLPersistence.Batch) (k : string) : list string :=
  default [] (MySQLPersistence.obj_get (MySQLPersistence.values b) k).

(** The fields a change set writes: the keys of its serialized [$set] and the
    keys of its [$inc]. *)
Definition touched (partialSerialize : list (string * value) -> list (string * value))
    (cs : MySQLPersistence.ChangeSet) : list string :=
  match MySQLPersistence.changes_set cs with
  | Some set => map fst (partialSerialize set)
  | None => []
  end
  ++ match MySQLPersistence.changes_inc cs with
     | Some inc => map fst inc
     | None => []
     end.

(** The objects of a change set have each key once. *)
Definition wellKeyed (partialSerialize : list (string * value) -> list (string * value))
    (cs : MySQLPersistence.ChangeSet) : Prop :=
  match MySQLPersistence.changes_set cs with
  | Some set => NoDup (map fst (partialSerialize set))
  | None => True
  end
  /\ match MySQLPersistence.changes_inc cs with
     | Some inc => NoDup (map fst inc)
     | None => True
     end.

(** A field has a column in the value table. *)
Definition hasColumn (b : MySQLPersistence.Batch) (k : string) : Prop :=
  is_Some (MySQLPersistence.obj_get (MySQLPersistence.values b) k).

(** One if the proposition holds, zero otherwise. *)
Definition count (P : Prop) `{Decision P} : nat := if decide P then 1%nat else 0%nat.

(** ** Data of the further examples *)

Module Fixtures.

(** A wrapper class whose decorated property [items] is an array of
    numbers, and a registry that knows it next to the schemas above. *)
Definition wrapper : ClassSchema :=
  {| schemaName := "Wrapper"; decorator := Some "items";
     properties :=
       [ Examples.withSubType (property "items" t_number) (property "items" t_array) ] |}.

Definition registry : Registry := <["Wrapper" := wrapper]> Examples.registry.

(** A decoder of nested schemas that accepts objects and rejects the rest. *)
Definition objectsOnly (schema : ClassSchema) (v : value) : result value :=
  match v with
  | VObj _ fields => Ok (VObj (Some (schemaName schema)) fields)
  | _ => Throw (Error "Not an object")
  end.

(** The auto-increment field [id] and the packet of an insert whose first
    generated id is 41. *)
Definition idField : PropertySchema := property "id" t_number.

Definition inserted : UpsertResult :=
  {| affectedRows := 3; insertId := 41; warningStatus := 0 |}.

(** Three objects with a title each. *)
Definition heap : gmap nat (gmap string value) :=
  <[0%nat := {["title" := VStr "a"]}]>
    (<[1%nat := {["title" := VStr "b"]}]>
       (<[2%nat := {["title" := VStr "c"]}]> ∅)).

(** Backticks around an identifier; values printed as they are. *)
Definition backticks (s : string) : string := "`" +:+ s +:+ "`".

Definition retitle (id : Z) (title : string) : MySQLPersistence.ChangeSet :=
  {| MySQLPersistence.primaryKey := [("id", VNum id)];
     MySQLPersistence.changes_set := Some [("title", VStr title)];
     MySQLPersistence.changes_inc := None;
     MySQLPersistence.item := 0%nat |}.

Definition reprice (id : Z) (amount : Z) : MySQLPersistence.ChangeSet :=
  {| MySQLPersistence.primaryKey := [("id", VNum id)];
     MySQLPersistence.changes_set := None;
     MySQLPersistence.changes_inc := Some [("price", VNum amount)];
     MySQLPersistence.item := 1%nat |}.

End Fixtures.

(** * Properties *)

(** ** Unions *)

Section UnionFacts.
Variable sorted : PropertySchema -> list UnionType.
Variable convert : PropertySchema -> value -> step.

Lemma union_loop (l : list UnionType) d ds :
  fold_left
    (fun '(discriminator, discriminants) unionType =>
       (discriminator ++ [(ut_guard unionType, convert (ut_property unionType))],
        discriminants ++ [type_name (type (ut_property unionType))]))
    l (d, ds)
  = (d ++ chain_of convert l, ds ++ map (fun u => type_name (type (ut_property u))) l).
Proof.
  revert d ds. induction l as [|u l IH]; intros d ds; simpl.
  - by rewrite !app_nil_r.
  - rewrite IH. by rewrite <- !app_assoc.
Qed.

Lemma compile_union_unfold (p : PropertySchema) :
  compile_union sorted convert p
  = (run_discriminator (chain_of convert (sorted p)) (fallback_of p),
     map (fun u => type_name (type (ut_property u))) (sorted p)).
Proof. unfold compile_union. by rewrite union_loop. Qed.

Lemma union_step_unfold (p : PropertySchema) (v : value) :
  union_step sorted convert p v
  = run_discriminator (chain_of convert (sorted p)) (fallback_of p) v.
Proof. unfold union_step. by rewrite compile_union_unfold. Qed.

Lemma run_discriminator_skip pre rest e v :
  no_guard_matches pre v ->
  run_discriminator (chain_of convert (pre ++ rest)) e v
  = run_discriminator (chain_of convert rest) e v.
Proof.
  unfold no_guard_matches.
  induction 1 as [|u pre Hu _ IH]; simpl; [done|]. by rewrite Hu.
Qed.

Lemma run_discriminator_hit c post e v :
  ut_guard c v = true ->
  run_discriminator (chain_of convert (c :: post)) e v = convert (ut_property c) v.
Proof. intros Hc. simpl. by rewrite Hc. Qed.

Lemma run_discriminator_miss l e v :
  no_guard_matches l v ->
  run_discriminator (chain_of convert l) e v = e.
Proof.
  intros H. rewrite <- (app_nil_r l). by rewrite run_discriminator_skip.
Qed.

(** The loop does collect the type tags of the candidates; the else branch
    was built before it ran. *)
Lemma union_discriminants_collected (p : PropertySchema) :
  union_discriminants sorted convert p
  = map (fun u => type_name (type (ut_property u))) (sorted p).
Proof. unfold union_discriminants. by rewrite compile_union_unfold. Qed.
End UnionFacts.

Lemma fallback_of_spec (p : PropertySchema) : union_fallback p (fallback_of p).
Proof.
  unfold union_fallback, fallback_of.
  destruct (isOptional p), (isNullable p), (hasManualDefaultValue p);
    repeat split; intros; try done; by eexists.
Qed.


(** The sorter puts the literals before the shape, whatever the order of
    declaration. *)
Example sorted_most_specific_first :
  map (fun u => name (ut_property u) +:+ ":" +:+ to_string (literalValue (ut_property u)))
      (getSortedUnionTypes Examples.registry
         (Examples.union "kind"
            [Examples.classProperty "shape" "Point" false;
             Examples.literal "first" (VStr "a");
             Examples.literal "second" (VStr "b")]))
  = ["first:a"; "second:b"; "shape:undefined"].
Proof. reflexivity. Qed.

(** C2: the guards of a union are tried in the order of the sorted
    candidates, and the first one that accepts the input selects the
    conversion step of its candidate, in both directions; what follows the
    first hit has no part in the result.  With the candidates literal "a",
    literal "b" and the shape of {x: number}, the input "a" goes to the first
    candidate and the input {x: 5} to the third, as the example after the
    theorem computes. *)
Theorem union_first_match
    (sorted : PropertySchema -> list UnionType)
    (toClassJS fromClassJS : PropertySchema -> value -> step)
    (p : PropertySchema) (v : value) (pre : list UnionType) (c : UnionType)
    (post : list UnionType) :
  sorted p = pre ++ c :: post ->
  no_guard_matches pre v ->
  ut_guard c v = true ->
  toClass_union sorted toClassJS p v = toClassJS (ut_property c) v
  /\ fromClass_union sorted fromClassJS p v = fromClassJS (ut_property c) v.
Proof.
  intros Hs Hpre Hc. unfold toClass_union, fromClass_union.
  rewrite !union_step_unfold, Hs.
  rewrite !run_discriminator_skip by done.
  by rewrite !run_discriminator_hit.
Qed.

Lemma union_first_match_witness :
  let sorted := getSortedUnionTypes Examples.registry in
  let decode := toClassConverter Examples.registry 2 in
  let encode := fromClassConverter Examples.registry 2 in
  let candidate q := {| ut_property := q; ut_guard := guard_of Examples.registry q |} in
  (toClass_union sorted decode Examples.unionABShape (VStr "a")
   = decode Examples.candidateA (VStr "a")
   /\ decode Examples.candidateA (VStr "a") = assign (VStr "a"))
  /\ (toClass_union sorted decode Examples.unionABShape Examples.x5
      = decode Examples.candidateShape Examples.x5
      /\ decode Examples.candidateShape Examples.x5
         = assign (VObj (Some "Point") (<["x" := VNum 5]> ∅))).
Proof.
  intros sorted decode encode candidate. split; split.
  - apply (union_first_match sorted decode encode Examples.unionABShape (VStr "a")
             [] (candidate Examples.candidateA)
             [candidate Examples.candidateB; candidate Examples.candidateShape]).
    + reflexivity.
    + constructor.
    + reflexivity.
  - reflexivity.
  - apply (union_first_match sorted decode encode Examples.unionABShape Examples.x5
             [candidate Examples.candidateA; candidate Examples.candidateB]
             (candidate Examples.candidateShape) []).
    + reflexivity.
    + repeat constructor.
    + reflexivity.
  - vm_compute. reflexivity.
Defined.

(** C3: when no guard of a union accepts the input, the fallback follows the
    flags of the field in this order, when decoding and when encoding alike:
    optional, the output is left unset; else nullable, the output is null;
    else a configured default, the output is that default; only with none of
    the three does the conversion fail. *)
Theorem union_no_match_fallback
    (sorted : PropertySchema -> list UnionType)
    (toClassJS fromClassJS : PropertySchema -> value -> step)
    (p : PropertySchema) (v : value) :
  no_guard_matches (sorted p) v ->
  union_fallback p (toClass_union sorted toClassJS p v)
  /\ union_fallback p (fromClass_union sorted fromClassJS p v).
Proof.
  intros Hno. unfold toClass_union, fromClass_union.
  rewrite !union_step_unfold, !run_discriminator_miss by done.
  split; apply fallback_of_spec.
Qed.

Lemma union_no_match_fallback_witness :
  let sorted := getSortedUnionTypes Examples.registry in
  let decode := toClassConverter Examples.registry 2 in
  let encode := fromClassConverter Examples.registry 2 in
  let p := Examples.withDefault (VStr "a") Examples.unionAB in
  no_guard_matches (sorted p) (VStr "z")
  /\ toClass_union sorted decode p (VStr "z") = assign (VStr "a")
  /\ fromClass_union sorted encode p (VStr "z") = assign (VStr "a").
Proof.
  intros sorted decode encode p.
  assert (Hno : no_guard_matches (sorted p) (VStr "z")) by (repeat constructor).
  destruct (union_no_match_fallback sorted decode encode p (VStr "z") Hno)
    as [(_ & _ & Hd & _) (_ & _ & He & _)].
  split; [exact Hno|]. split; [by apply Hd | by apply He].
Defined.

(** C1, as the code has it: when no guard of a union accepts the input and
    the field is neither optional nor nullable and has no configured default,
    the conversion fails, in both directions, with an error whose message is
    the text "No valid discriminant was found, so could not determine class
    type. Guard tried: [" followed by a list of guards and "]."; the failure
    is the same for every field with these candidates, whatever its name. *)
Theorem union_no_match_error
    (sorted : PropertySchema -> list UnionType)
    (toClassJS fromClassJS : PropertySchema -> value -> step)
    (p : PropertySchema) (v : value) :
  no_guard_matches (sorted p) v ->
  isOptional p = false -> isNullable p = false -> hasManualDefaultValue p = false ->
  unmatched_union (toClass_union sorted toClassJS p v)
  /\ unmatched_union (fromClass_union sorted fromClassJS p v)
  /\ forall p' : PropertySchema,
      sorted p' = sorted p ->
      isOptional p' = false -> isNullable p' = false ->
      hasManualDefaultValue p' = false ->
      toClass_union sorted toClassJS p' v = toClass_union sorted toClassJS p v
      /\ fromClass_union sorted fromClassJS p' v = fromClass_union sorted fromClassJS p v.
Proof.
  intros Hno Ho Hn Hd. unfold toClass_union, fromClass_union.
  rewrite !union_step_unfold, !run_discriminator_miss by done.
  unfold fallback_of. rewrite Ho, Hn, Hd.
  split; [by exists "" |]. split; [by exists "" |].
  intros p' Hs Ho' Hn' Hd'.
  rewrite !union_step_unfold, Hs, !run_discriminator_miss by done.
  unfold fallback_of. by rewrite Ho', Hn', Hd'.
Qed.

Lemma union_no_match_error_witness :
  let sorted := getSortedUnionTypes Examples.registry in
  let decode := toClassConverter Examples.registry 2 in
  let encode := fromClassConverter Examples.registry 2 in
  no_guard_matches (sorted Examples.unionAB) (VStr "z")
  /\ unmatched_union (toClass_union sorted decode Examples.unionAB (VStr "z"))
  /\ unmatched_union (fromClass_union sorted encode Examples.unionAB (VStr "z")).
Proof.
  intros sorted decode encode.
  assert (Hno : no_guard_matches (sorted Examples.unionAB) (VStr "z"))
    by (repeat constructor).
  destruct (union_no_match_error sorted decode encode Examples.unionAB (VStr "z")
              Hno eq_refl eq_refl eq_refl) as (Hd & He & _).
  by repeat split.
Defined.

(** C1, as the specification words it, fails on the literals "a" and "b" with
    the input "z": the error that is raised names neither the field nor any
    candidate. *)
Lemma union_error_names_nothing :
  let r := toClass_union (getSortedUnionTypes Examples.registry)
             (toClassConverter Examples.registry 2) Examples.unionAB (VStr "z") in
  r = Throw (Error "No valid discriminant was found, so could not determine class type. Guard tried: [].")
  /\ ~ names_field_and_candidates Examples.unionAB "a,b" r
  /\ ~ names_field_and_candidates Examples.unionAB "literal,literal" r.
Proof.
  intros r.
  assert (Hr : r = Throw (Error "No valid discriminant was found, so could not determine class type. Guard tried: [].")) by reflexivity.
  split; [exact Hr|].
  split; intros (m & Hm & Hname & Htried); rewrite Hr in Hm;
    injection Hm as <-; vm_compute in Htried; discriminate.
Qed.

(** ** Nested schemas *)

(** C4, as the code has it: on a field of a nested schema without a
    decorator, a string is read as JSON and decoded when the field is no
    reference; a string that does not parse, or whose parsed value the nested
    decoder rejects, leaves the field unset.  On a reference the string is
    not read at all and the field is left unset.  In no case does the failure
    reach the caller. *)
Theorem nested_string_lenient
    (reg : Registry) (xToClass : ClassSchema -> value -> result value)
    (parse : string -> result value) (p : PropertySchema)
    (foreignSchema : ClassSchema) (s : string) :
  getClassSchema reg (resolveClassType p) = Some foreignSchema ->
  decorator foreignSchema = None ->
  let r := toClass_class reg xToClass parse p (VStr s) in
  (isReference p = true -> r = untouched)
  /\ (isReference p = false ->
      (forall parsed entity, parse s = Ok parsed ->
         xToClass foreignSchema parsed = Ok entity -> r = assign entity)
      /\ (forall e, parse s = Throw e -> r = untouched)
      /\ (forall parsed e, parse s = Ok parsed ->
            xToClass foreignSchema parsed = Throw e -> r = untouched))
  /\ (forall e, r <> Throw e).
Proof.
  intros Hs Hd r. subst r. unfold toClass_class. rewrite Hs, Hd. simpl.
  destruct (isReference p); simpl.
  - repeat split; try done.
  - repeat split; try done.
    + intros parsed entity Hp Hx. by rewrite Hp; simpl; rewrite Hx.
    + intros e Hp. by rewrite Hp.
    + intros parsed e Hp Hx. by rewrite Hp; simpl; rewrite Hx.
    + intros e. destruct (parse s) as [parsed| |]; simpl; try done.
      by destruct (xToClass foreignSchema parsed).
Qed.

Lemma nested_string_lenient_witness :
  let xToClass := fun s => runPipeline (Some (schemaName s))
                             (toClassConverter Examples.registry 1) s in
  let p := Examples.classProperty "start" "Point" false in
  JSON_parse "not json" = Throw (SyntaxError "Unexpected token in JSON")
  /\ toClass_class Examples.registry xToClass JSON_parse p (VStr "not json") = untouched
  /\ toClass_class Examples.registry xToClass JSON_parse p (VStr Examples.x5_text)
     = assign (VObj (Some "Point") (<["x" := VNum 5]> ∅))
  /\ getXToClassFunction Examples.registry 2 Examples.segment
       (VObj None (<["start" := VStr "not json"]> ∅))
     = Ok (VObj (Some "Segment") ∅).
Proof.
  intros xToClass p.
  destruct (nested_string_lenient Examples.registry xToClass JSON_parse p
              Examples.point "not json" eq_refl eq_refl) as (_ & Hbad & _).
  destruct (nested_string_lenient Examples.registry xToClass JSON_parse p
              Examples.point Examples.x5_text eq_refl eq_refl) as (_ & Hgood & _).
  split; [reflexivity|]. split.
  - apply (proj1 (proj2 (Hbad eq_refl)) (SyntaxError "Unexpected token in JSON")).
    reflexivity.
  - split; [|reflexivity].
    apply (proj1 (Hgood eq_refl) (VObj None (<["x" := VNum 5]> ∅))); reflexivity.
Defined.

(** C4, as the specification words it, fails on a reference: the text
    {"x":5} on a reference to [Point] is not read as JSON; the field is left
    unset where the decoded point would have been assigned. *)
Lemma reference_string_not_read :
  let xToClass := fun s => runPipeline (Some (schemaName s))
                             (toClassConverter Examples.registry 1) s in
  let p := Examples.classProperty "start" "Point" true in
  let r := toClass_class Examples.registry xToClass JSON_parse p (VStr Examples.x5_text) in
  r = untouched
  /\ ~ string_read_as_json xToClass JSON_parse Examples.point Examples.x5_text r.
Proof.
  intros xToClass p r. split; [reflexivity|].
  unfold string_read_as_json. vm_compute. discriminate.
Qed.

(** ** Validation before decoding *)

(** C5: [validatedPlainToClass] raises [ValidationFailed] exactly when
    [validate] reports at least one error, and then with the whole report;
    with an empty report it hands back what [plainToClass] yields.
    [validate] itself yields a list and raises nothing.  (The decoder is
    taken not to raise [ValidationFailed] on the input at hand.) *)
Theorem validatedPlainToClass_spec
    (getXToClass : ClassSchema -> value -> result value)
    (validator : ClassSchema -> value -> list ValidationFailedItem)
    (schema : ClassSchema) (data : value) :
  (forall errors, getXToClass schema data <> Throw (ValidationFailed errors)) ->
  let r := validatedPlainToClass getXToClass validator schema data in
  (validator schema data <> [] -> r = Throw (ValidationFailed (validator schema data)))
  /\ (validator schema data = [] -> r = plainToClass getXToClass schema data)
  /\ ((exists errors, r = Throw (ValidationFailed errors)) <-> validator schema data <> [])
  /\ (forall errors, r = Throw (ValidationFailed errors) -> errors = validator schema data).
Proof.
  intros Hdec r. subst r. unfold validatedPlainToClass, plainToClass.
  destruct (validator schema data) as [|e es] eqn:Hv; simpl.
  - repeat split; try done.
    + intros [errors Herr]. by apply Hdec in Herr.
    + intros errors Herr. by apply Hdec in Herr.
  - repeat split; try done.
    + by eexists.
    + intros errors Herr. by injection Herr.
Qed.

Lemma validatedPlainToClass_spec_witness :
  let decode := getXToClassFunction Examples.registry 2 in
  let withId := VObj None (<["id" := VNum 7]>
                  (<["category" := VStr "toys"]>
                     (<["title" := VStr "Car"]> (<["price" := VNum 499]> ∅)))) in
  (forall errors, decode Examples.product Examples.car <> Throw (ValidationFailed errors))
  /\ validatedPlainToClass decode validate Examples.product Examples.car
     = Throw (ValidationFailed
                [fieldError (property "id" t_number) "required"
                   "Required value is undefined"])
  /\ validate Examples.product withId = []
  /\ validatedPlainToClass decode validate Examples.product withId
     = decode Examples.product withId.
Proof.
  intros decode withId.
  assert (H1 : forall errors,
             decode Examples.product Examples.car <> Throw (ValidationFailed errors))
    by (intros errors; vm_compute; discriminate).
  assert (H2 : forall errors,
             decode Examples.product withId <> Throw (ValidationFailed errors))
    by (intros errors; vm_compute; discriminate).
  destruct (validatedPlainToClass_spec decode validate Examples.product Examples.car H1)
    as (Hbad & _).
  destruct (validatedPlainToClass_spec decode validate Examples.product withId H2)
    as (_ & Hgood & _).
  split; [exact H1|]. split; [by apply Hbad|]. split; [reflexivity|].
  by apply Hgood.
Defined.

(** ** Defaults *)

(** C6: decoding succeeds when fields are absent and applies the default
    handling: an absent field gets its configured default if it has one and
    is left unset otherwise (a required literal gets its literal).  The
    product {category: "toys", title: "Car", price: 499}, with neither id nor
    rating, decodes to an entity whose rating is the default 0 and whose id
    is not set. *)
Theorem product_decode_defaults (n : nat) :
  (forall (reg : Registry) (p : PropertySchema),
     toClassConverter reg (S n) p VUndefined
     = if bool_decide (type p = t_literal) && negb (isOptional p)
       then assign (literalValue p)
       else if hasManualDefaultValue p then assign (defaultValue p)
       else untouched)
  /\ let entity :=
       VObj (Some "Product")
         (<["category" := VStr "toys"]>
            (<["title" := VStr "Car"]>
               (<["price" := VNum 499]> (<["rating" := VNum 0]> ∅)))) in
     plainToClass (getXToClassFunction Examples.registry (S n))
       Examples.product Examples.car
     = Ok entity
     /\ get_prop entity "rating" = VNum 0
     /\ match entity with
        | VObj _ fields => fields !! "id" = None
        | _ => False
        end.
Proof.
  split.
  - intros reg p. simpl. unfold toClass_prepend_undefined, defaultHandling.
    by destruct (bool_decide (type p = t_literal) && negb (isOptional p)).
  - intros entity. split; [|split]; vm_compute; reflexivity.
Qed.

(** ** Enums *)

Lemma existsb_none {A : Type} (f : A -> bool) (l : list A) :
  Forall (fun x => f x = false) l -> existsb f l = false.
Proof. induction 1 as [|x xs Hx _ IH]; simpl; [done|]. by rewrite Hx. Qed.

Lemma isValidEnumValue_outside (members : list (string * value)) (v : value)
    (allowLabels : bool) :
  Forall (fun x => strict_eq x v = false) (getEnumValues members) ->
  (allowLabels = true ->
   Forall (fun l => strict_eq (VStr l) v = false) (getEnumLabels members)) ->
  isValidEnumValue members v allowLabels = false.
Proof.
  intros Hv Hl. unfold isValidEnumValue.
  rewrite (existsb_none _ _ Hv), orb_false_r.
  destruct allowLabels; [|done]. simpl. by apply existsb_none, Hl.
Qed.

(** C7: decoding an enum field from a defined value that is none of the
    declared values and, when labels are permitted, none of the labels,
    raises an error whose message carries the value and the whole valid set:
    the values, followed by the labels when labels are permitted. *)
Theorem enum_outside_raises (p : PropertySchema) (v : value) :
  v <> VUndefined ->
  Forall (fun x => strict_eq x v = false) (getEnumValues (enum_members p)) ->
  (allowLabelsAsValue p = true ->
   Forall (fun l => strict_eq (VStr l) v = false) (getEnumLabels (enum_members p))) ->
  toClass_enum isValidEnumValue getEnumValues getEnumLabels getValidEnumValue p v
  = Throw (invalid_enum p v
             (getEnumValues (enum_members p)
              ++ (if allowLabelsAsValue p
                  then map VStr (getEnumLabels (enum_members p)) else []))).
Proof.
  intros Hdef Hv Hl. unfold toClass_enum, invalid_enum, enum_valids.
  rewrite (isValidEnumValue_outside _ _ _ Hv Hl).
  replace (strict_eq VUndefined v) with false by (by destruct v).
  simpl. destruct (allowLabelsAsValue p); [done|]. by rewrite app_nil_r.
Qed.

Lemma enum_outside_raises_witness :
  let p := Examples.enum "color" Examples.color true in
  VStr "x" <> VUndefined
  /\ toClass_enum isValidEnumValue getEnumValues getEnumLabels getValidEnumValue p (VStr "x")
     = Throw (Error "Invalid ENUM given in property color: x, valid: r,g,Red,Green").
Proof.
  intros p. split; [discriminate|].
  apply (enum_outside_raises p (VStr "x")).
  - discriminate.
  - repeat constructor.
  - intros _. repeat constructor.
Defined.

(** ** Round trips *)

Lemma populate_ok convert data props out :
  Forall (fun q => exists r, convert q (get_prop data (name q)) = Ok r) props ->
  populate convert data props out
  = Ok (fill (fun q => assigned (convert q (get_prop data (name q)))) props out).
Proof.
  intros H. revert out. induction H as [|q props [r Hr] _ IH]; intros out; simpl.
  - done.
  - rewrite Hr. simpl. rewrite IH. done.
Qed.

Lemma fill_cons g q props out :
  fill g (q :: props) out
  = fill g props (match g q with Some x => <[name q := x]> out | None => out end).
Proof. reflexivity. Qed.

Lemma fill_lookup_notin g props out k :
  k ∉ map name props -> fill g props out !! k = out !! k.
Proof.
  revert out. induction props as [|q props IH]; intros out Hk; [done|].
  simpl in Hk. apply not_elem_of_cons in Hk as [Hne Hk].
  rewrite fill_cons, IH by done.
  destruct (g q); [|done]. by rewrite lookup_insert_ne.
Qed.

Lemma fill_lookup_in g props out q :
  NoDup (map name props) -> q ∈ props ->
  fill g props out !! name q
  = match g q with Some x => Some x | None => out !! name q end.
Proof.
  revert out. induction props as [|q' props IH]; intros out Hnd Hq.
  - by apply elem_of_nil in Hq.
  - simpl in Hnd. apply NoDup_cons in Hnd as [Hnotin Hnd].
    rewrite fill_cons.
    apply elem_of_cons in Hq as [->|Hq].
    + rewrite fill_lookup_notin by done.
      destruct (g q'); [by rewrite lookup_insert_eq | done].
    + rewrite IH by done.
      destruct (g q) eqn:Hg; [done|].
      destruct (g q'); [|done].
      rewrite lookup_insert_ne; [done|].
      intros Heq. apply Hnotin. rewrite Heq. by apply list_elem_of_fmap_2.
Qed.

Lemma round_trips_outcome first second v :
  round_trips first second v ->
  exists r, first v = Ok r
    /\ second (default VUndefined r) = Ok (match v with VUndefined => None | _ => Some v end).
Proof.
  destruct v; simpl.
  1: intros [H1 H2]; exists None; by rewrite H1.
  all: intros (w & H1 & H2); exists (Some w); by rewrite H1.
Qed.

Lemma pipeline_round (first second : PropertySchema -> value -> step)
    (c1 c2 : option string) (schema : ClassSchema) (fields : gmap string value) :
  NoDup (map name (properties schema)) ->
  dom fields ⊆ list_to_set (map name (properties schema)) ->
  Forall (fun q => fields !! name q <> Some VUndefined
                   /\ round_trips (first q) (second q)
                        (default VUndefined (fields !! name q)))
         (properties schema) ->
  exists out,
    runPipeline c2 first schema (VObj c1 fields) = Ok (VObj c2 out)
    /\ runPipeline c1 second schema (VObj c2 out) = Ok (VObj c1 fields).
Proof.
  intros Hnd Hdom Hall.
  set (g1 := fun q => assigned (first q (get_prop (VObj c1 fields) (name q)))).
  set (out := fill g1 (properties schema) ∅).
  exists out. unfold runPipeline.
  rewrite populate_ok.
  2:{ eapply Forall_impl; [exact Hall|]. intros q [_ Hq].
      apply round_trips_outcome in Hq as (r & Hr & _). by exists r. }
  split; [done|]. simpl.
  rewrite populate_ok.
  2:{ apply Forall_forall. intros q Hq.
      rewrite Forall_forall in Hall. destruct (Hall q Hq) as [_ Hrt].
      apply round_trips_outcome in Hrt as (r & Hr & Hback).
      simpl. unfold out. rewrite fill_lookup_in by done.
      unfold g1. simpl. rewrite Hr. simpl. rewrite lookup_empty.
      replace (default VUndefined match r with Some x => Some x | None => None end)
        with (default VUndefined r) by (by destruct r).
      eauto. }
  simpl. do 2 f_equal. apply map_eq. intros k.
  destruct (decide (k ∈ map name (properties schema))) as [Hin|Hnotin].
  - apply list_elem_of_fmap in Hin as (q & -> & Hq).
    rewrite fill_lookup_in by done. rewrite lookup_empty.
    rewrite Forall_forall in Hall. destruct (Hall q Hq) as [Hdef Hrt].
    apply round_trips_outcome in Hrt as (r & Hr & Hback).
    simpl. unfold out at 1. rewrite fill_lookup_in by done.
    unfold g1 at 1. simpl. rewrite Hr. simpl. rewrite lookup_empty.
    replace (default VUndefined match r with Some x => Some x | None => None end)
      with (default VUndefined r) by (by destruct r).
    rewrite Hback. simpl.
    destruct (fields !! name q) as [x|] eqn:Hx; simpl; [|done].
    destruct x; try done.
  - rewrite fill_lookup_notin by done. rewrite lookup_empty.
    symmetry. apply not_elem_of_dom. intros Hk. apply Hnotin.
    apply Hdom in Hk. by apply elem_of_list_to_set in Hk.
Qed.

Lemma convertArray_round (first second : value -> step) (items : list value) :
  Forall (round_trips first second) items ->
  exists items',
    convertArray first (VArr items) = assign (VArr items')
    /\ convertArray second (VArr items') = assign (VArr items).
Proof.
  intros H.
  assert (exists items',
             mapM (fun x => r ← first x; Ok (default VUndefined r)) items = Ok items'
             /\ mapM (fun x => r ← second x; Ok (default VUndefined r)) items' = Ok items)
    as (items' & H1 & H2).
  { induction H as [|x items Hx _ (items' & H1 & H2)].
    - by exists [].
    - apply round_trips_outcome in Hx as (r & Hr & Hback).
      exists (default VUndefined r :: items'). simpl.
      rewrite Hr; simpl. rewrite H1; simpl.
      rewrite Hback; simpl. rewrite H2; simpl.
      split; [done|]. by destruct x. }
  exists items'. simpl. rewrite H1. simpl. rewrite H2. done.
Qed.

Lemma map_fold_convert (convert : value -> step) (fields : gmap string value) :
  map_Forall (fun _ x => exists r, convert x = Ok r) fields ->
  map_fold (convertEntry convert) (Ok ∅) fields
  = Ok (omap (fun x => assigned (convert x)) fields).
Proof.
  apply (map_fold_weak_ind
           (fun r (m : gmap string value) =>
              map_Forall (fun _ x => exists r, convert x = Ok r) m ->
              r = Ok (omap (fun x => assigned (convert x)) m))).
  - intros _. by rewrite omap_empty.
  - intros i x m r Hi IH Hall.
    apply map_Forall_insert in Hall as [[o Ho] Hall]; [|done].
    rewrite (IH Hall). unfold convertEntry. simpl. rewrite Ho. simpl.
    destruct o as [y|].
    + rewrite (omap_insert_Some _ _ _ _ y); [done|]. by rewrite Ho.
    + rewrite omap_insert_None by (by rewrite Ho).
      rewrite delete_id; [done|]. by rewrite lookup_omap, Hi.
Qed.

Lemma convertMap_round (first second : value -> step) (fields : gmap string value) :
  map_Forall (fun _ x => defined_and (fun _ => true) x = true
                         /\ round_trips first second x) fields ->
  exists out,
    convertMap first (VObj None fields) = assign (VObj None out)
    /\ convertMap second (VObj None out) = assign (VObj None fields).
Proof.
  intros H.
  exists (omap (fun x => assigned (first x)) fields). simpl.
  rewrite map_fold_convert.
  2:{ intros k x Hx. destruct (H k x Hx) as [_ Hrt].
      apply round_trips_outcome in Hrt as (r & Hr & _). eauto. }
  split; [done|]. simpl.
  rewrite map_fold_convert.
  2:{ intros k w Hw. apply lookup_omap_Some in Hw as (x & Hxw & Hx).
      destruct (H k x Hx) as [Hdef Hrt].
      destruct x; try done; destruct Hrt as (w' & H1 & H2);
        rewrite H1 in Hxw; injection Hxw as <-; eauto. }
  simpl. do 3 f_equal. apply map_eq. intros k.
  rewrite !lookup_omap.
  destruct (fields !! k) as [x|] eqn:Hx; simpl; [|done].
  destruct (H k x Hx) as [Hdef Hrt].
  destruct x; try done; destruct Hrt as (w' & H1 & H2);
    rewrite H1; simpl; by rewrite H2.
Qed.

Lemma wellFormedFields_inv wf side schema c fields :
  wellFormedFields wf side schema (VObj c fields) = true ->
  decorator schema = None
  /\ c = tag_of side schema
  /\ NoDup (map name (properties schema))
  /\ dom fields ⊆ list_to_set (map name (properties schema))
  /\ Forall (fun q => fields !! name q <> Some VUndefined
                      /\ wf q (default VUndefined (fields !! name q)) = true)
            (properties schema).
Proof.
  unfold wellFormedFields. rewrite !andb_true_iff, !bool_decide_eq_true.
  intros ((((Hd & Hc) & Hnd) & Hdom) & Hall). repeat split; try done.
  rewrite forallb_forall in Hall. apply Forall_forall. intros q Hq.
  apply list_elem_of_In in Hq. specialize (Hall q Hq).
  destruct (fields !! name q) as [x|]; [|done].
  destruct x; try done.
Qed.

Lemma toClass_class_object reg xToClass parse p schema c out :
  getClassSchema reg (resolveClassType p) = Some schema ->
  decorator schema = None ->
  toClass_class reg xToClass parse p (VObj c out)
  = (r ← xToClass schema (VObj c out); assign r).
Proof. intros Hs Hd. unfold toClass_class. by rewrite Hs, Hd. Qed.

Lemma fromClass_class_found reg classToX p schema v :
  getClassSchema reg (resolveClassType p) = Some schema ->
  fromClass_class reg classToX p v = (r ← classToX schema v; assign r).
Proof. intros Hs. unfold fromClass_class. by rewrite Hs. Qed.

Lemma toClass_enum_declared p v :
  existsb (fun x => strict_eq x v) (getEnumValues (enum_members p)) = true ->
  toClass_enum isValidEnumValue getEnumValues getEnumLabels getValidEnumValue p v
  = assign v.
Proof.
  intros H. unfold toClass_enum, isValidEnumValue, getValidEnumValue.
  rewrite H, orb_true_r, andb_false_r. done.
Qed.

Ltac by_type p Ht Hwf :=
  simpl in Hwf; destruct (type p) eqn:Ht; try done;
  try (destruct (getClassSchema _ (resolveClassType p)); done);
  try (destruct (templateArgs p); done).

Ltac copied side Ht :=
  destruct side; simpl; rewrite Ht, ?toClass_enum_declared; done.

Lemma round_trip_slot reg side n :
  forall p v, wellFormed reg side n p v = true ->
              round_trips (outward reg side n p) (homeward reg side n p) v.
Proof.
  induction n as [|n IH]; intros p v Hwf; [done|].
  destruct v as [| |b|k| |s|items|c fields].
  - simpl in Hwf. unfold filled_when_absent in Hwf.
    apply negb_true_iff, orb_false_iff in Hwf as [Hd Hl].
    destruct side; simpl; unfold defaultHandling, toClass_prepend_undefined;
      rewrite Hd, Hl; done.
  - simpl in Hwf. exists VNull.
    destruct side; simpl; unfold nullHandling, toClass_prepend_null;
      rewrite Hwf, andb_false_r; done.
  - by_type p Ht Hwf; exists (VBool b); copied side Ht.
  - by_type p Ht Hwf; exists (VNum k); copied side Ht.
  - by_type p Ht Hwf; exists VNaN; copied side Ht.
  - by_type p Ht Hwf; exists (VStr s); copied side Ht.
  - by_type p Ht Hwf.
    + exists (VArr items); copied side Ht.
    + destruct (templateArgs p) as [|sub rest] eqn:Hargs; [done|].
      assert (Forall (round_trips (outward reg side n sub) (homeward reg side n sub)) items)
        as Hall.
      { apply Forall_forall. intros x Hx. apply IH.
        rewrite forallb_forall in Hwf. apply Hwf. by apply list_elem_of_In. }
      apply convertArray_round in Hall as (items' & H1 & H2).
      exists (VArr items').
      destruct side; simpl; unfold getSubType; rewrite Ht, Hargs; simpl; done.
  - by_type p Ht Hwf.
    + exists (VObj c fields); copied side Ht.
    + destruct (getClassSchema reg (resolveClassType p)) as [schema|] eqn:Hs; [|done].
      apply wellFormedFields_inv in Hwf as (Hd & -> & Hnd & Hdom & Hall).
      destruct (pipeline_round (outward reg side n) (homeward reg side n)
                  (tag_of side schema) (tag_of (across side) schema) schema fields
                  Hnd Hdom) as (out & H1 & H2).
      { eapply Forall_impl; [exact Hall|]. intros q [Hq Hwf]. split; [done|].
        by apply IH. }
      exists (VObj (tag_of (across side) schema) out).
      destruct side; cbn [tag_of across outward homeward] in *;
        cbn [toClassConverter fromClassConverter]; rewrite Ht.
      * rewrite (fromClass_class_found _ _ _ schema) by done.
        rewrite H1. simpl.
        rewrite (toClass_class_object _ _ _ _ schema) by done.
        rewrite H2. done.
      * rewrite (toClass_class_object _ _ _ _ schema) by done.
        rewrite H1. simpl.
        rewrite (fromClass_class_found _ _ _ schema) by done.
        rewrite H2. done.
    + destruct c; [by destruct (templateArgs p)|].
      destruct (templateArgs p) as [|sub rest] eqn:Hargs; [done|].
      apply bool_decide_eq_true in Hwf.
      destruct (convertMap_round (outward reg side n sub) (homeward reg side n sub) fields)
        as (out & H1 & H2).
      { intros i x Hx. specialize (Hwf i x Hx). simpl in Hwf.
        split; [by destruct x|]. apply IH. by destruct x. }
      exists (VObj None out).
      destruct side; simpl; unfold getSubType; rewrite Ht, Hargs; simpl; done.
Qed.

(** C8: a well-formed value of a string, number, boolean, enum, array, map
    or nested-entity field makes the round trip in both directions: encoding
    an entity value and decoding the result gives the value back, and so does
    decoding a plain value and encoding the result.  The same holds for whole
    objects of a schema: [classToPlain] after [plainToClass] restores
    well-formed plain data, and [cloneClass], which deserializes what it
    serialized, returns a well-formed instance as it was. *)
Theorem round_trip (reg : Registry) (n : nat) :
  (forall p v, v <> VUndefined -> wellFormed reg Entity n p v = true ->
     exists plain, fromClassConverter reg n p v = assign plain
                   /\ toClassConverter reg n p plain = assign v)
  /\ (forall p v, v <> VUndefined -> wellFormed reg Plain n p v = true ->
      exists entity, toClassConverter reg n p v = assign entity
                     /\ fromClassConverter reg n p entity = assign v)
  /\ (forall schema data,
      wellFormedFields (wellFormed reg Plain n) Plain schema data = true ->
      exists entity,
        plainToClass (getXToClassFunction reg n) schema data = Ok entity
        /\ classToPlain (getClassToXFunction reg n) schema entity = Ok data)
  /\ (forall schema target,
      reg !! schemaName schema = Some schema ->
      wellFormedFields (wellFormed reg Entity n) Entity schema target = true ->
      cloneClass (getXToClassFunction reg n) (getClassToXFunction reg n)
        (getClassTypeFromInstance reg) target = Ok target).
Proof.
  repeat split.
  - intros p v Hv Hwf. apply (round_trip_slot reg Entity) in Hwf.
    by destruct v.
  - intros p v Hv Hwf. apply (round_trip_slot reg Plain) in Hwf.
    by destruct v.
  - intros schema data Hwf. destruct data as [| | | | | | |c fields]; try done.
    apply wellFormedFields_inv in Hwf as (_ & -> & Hnd & Hdom & Hall).
    destruct (pipeline_round (toClassConverter reg n) (fromClassConverter reg n)
                None (Some (schemaName schema)) schema fields Hnd Hdom)
      as (out & H1 & H2).
    { eapply Forall_impl; [exact Hall|]. intros q [Hq Hwf]. split; [done|].
      by apply (round_trip_slot reg Plain). }
    by exists (VObj (Some (schemaName schema)) out).
  - intros schema target Hreg Hwf.
    destruct target as [| | | | | | |c fields]; try done.
    apply wellFormedFields_inv in Hwf as (_ & -> & Hnd & Hdom & Hall).
    destruct (pipeline_round (fromClassConverter reg n) (toClassConverter reg n)
                (Some (schemaName schema)) None schema fields Hnd Hdom)
      as (out & H1 & H2).
    { eapply Forall_impl; [exact Hall|]. intros q [Hq Hwf]. split; [done|].
      by apply (round_trip_slot reg Entity). }
    unfold cloneClass, getClassTypeFromInstance, getClassToXFunction,
      getXToClassFunction. cbn [tag_of mbind result_bind] in *.
    rewrite Hreg. cbn [mbind result_bind]. rewrite H1. exact H2.
Qed.

Lemma round_trip_witness :
  let reg := Examples.studio in
  let color := Examples.enum "color" Examples.color true in
  (wellFormed reg Entity 1 color (VStr "r") = true
   /\ exists plain, fromClassConverter reg 1 color (VStr "r") = assign plain
                    /\ toClassConverter reg 1 color plain = assign (VStr "r"))
  /\ (wellFormedFields (wellFormed reg Plain 3) Plain Examples.drawing
        (Examples.sketch Plain) = true
      /\ exists entity,
          plainToClass (getXToClassFunction reg 3) Examples.drawing
            (Examples.sketch Plain) = Ok entity
          /\ classToPlain (getClassToXFunction reg 3) Examples.drawing entity
             = Ok (Examples.sketch Plain))
  /\ (wellFormedFields (wellFormed reg Entity 3) Entity Examples.drawing
        (Examples.sketch Entity) = true
      /\ cloneClass (getXToClassFunction reg 3) (getClassToXFunction reg 3)
           (getClassTypeFromInstance reg) (Examples.sketch Entity)
         = Ok (Examples.sketch Entity)).
Proof.
  intros reg color.
  destruct (round_trip reg 1) as (Hfield & _).
  destruct (round_trip reg 3) as (_ & _ & Hplain & Hclone).
  split; [|split].
  - split; [reflexivity|]. apply Hfield; [discriminate | reflexivity].
  - split; [vm_compute; reflexivity|]. apply Hplain. vm_compute; reflexivity.
  - split; [vm_compute; reflexivity|].
    apply (Hclone Examples.drawing); [reflexivity | vm_compute; reflexivity].
Defined.

(** * Further properties of the serializer and of the MySQL adapter *)



Lemma string_to_number_number (s : string) : typeof (string_to_number s) = "number".
Proof.
  unfold string_to_number.
  destruct (drop_spaces (list_ascii_of_string s)) as [|c cs]; [done|].
  destruct c as [[] [] [] [] [] [] [] []]; lazy beta iota zeta;
    repeat case_match; done.
Qed.


Ltac boolean_case :=
  split;
  [ first [ by right | left; eauto ]
  | split;
    [ first [ done
            | intros _; split; [done|]; rewrite !not_elem_of_cons;
              repeat split; try congruence; apply not_elem_of_nil ]
    | first [ done
            | intros [Hb Hs]; exfalso;
              first [ by eapply Hb | apply Hs; set_solver ] ] ] ].

(** X3: the boolean decoder never fails and never assigns anything but a
    boolean; a boolean is kept, and the field is left unset exactly for the
    inputs that are neither a boolean nor one of 'true', '1', 1, 'false',
    '0', 0. *)
Theorem toClass_boolean_outcomes (p : PropertySchema) (v : value) :
  (forall b, toClass_boolean p (VBool b) = assign (VBool b))
  /\ ((exists b, toClass_boolean p v = assign (VBool b))
      \/ toClass_boolean p v = untouched)
  /\ (toClass_boolean p v = untouched
      <-> (forall b, v <> VBool b) /\ v ∉ boolean_spellings).
Proof.
  split; [done|].
  unfold toClass_boolean, boolean_spellings.
  destruct v as [| |b|n| |s|items|c fields]; simpl;
    repeat case_bool_decide; subst; simpl; boolean_case.
Qed.

Lemma strict_eq_undefined (v : value) : strict_eq VUndefined v = true <-> v = VUndefined.
Proof. by destruct v. Qed.

(** X4: the enum decoder raises exactly when the input is defined and the
    validity check rejects it, and then with the "Invalid ENUM" error; in
    every other case, [undefined] included, it assigns what
    [getValidEnumValue] returns. *)
Theorem toClass_enum_raises_iff
    (isValid : list (string * value) -> value -> bool -> bool)
    (values : list (string * value) -> list value)
    (labels : list (string * value) -> list string)
    (getValid : list (string * value) -> value -> bool -> value)
    (p : PropertySchema) (v : value) :
  let r := toClass_enum isValid values labels getValid p v in
  ((exists e, r = Throw e)
   <-> v <> VUndefined /\ isValid (enum_members p) v (allowLabelsAsValue p) = false)
  /\ (r = Throw (invalid_enum p v (enum_valids values labels p))
      \/ r = assign (getValid (enum_members p) v (allowLabelsAsValue p)))
  /\ toClass_enum isValid values labels getValid p VUndefined
     = assign (getValid (enum_members p) VUndefined (allowLabelsAsValue p)).
Proof.
  intros r. subst r. unfold toClass_enum, invalid_enum.
  split; [|split; [|done]].
  - destruct (strict_eq VUndefined v) eqn:Hu; simpl.
    + apply strict_eq_undefined in Hu. split; [by intros [e He] | by intros [Hne _]].
    + destruct (isValid (enum_members p) v (allowLabelsAsValue p)); simpl.
      * split; [by intros [e He] | by intros [_ H]].
      * split; [|by eexists]. intros _. split; [|done]. by intros ->.
  - destruct (negb (strict_eq VUndefined v)
              && negb (isValid (enum_members p) v (allowLabelsAsValue p)));
      [by left | by right].
Qed.

(** X5: on an object that is no array, the decoder of a field of a nested
    schema without decorator hands the object to the nested decoder and
    nothing is swallowed: its entity is assigned and its exception reaches
    the caller, for references and non-references alike. *)
Theorem nested_object_decides
    (reg : Registry) (xToClass : ClassSchema -> value -> result value)
    (parse : string -> result value) (p : PropertySchema)
    (schema : ClassSchema) (c : option string) (fields : gmap string value) :
  getClassSchema reg (resolveClassType p) = Some schema ->
  decorator schema = None ->
  let r := toClass_class reg xToClass parse p (VObj c fields) in
  (forall entity, xToClass schema (VObj c fields) = Ok entity -> r = assign entity)
  /\ (forall e, xToClass schema (VObj c fields) = Throw e -> r = Throw e).
Proof.
  intros Hs Hd r. subst r. unfold toClass_class. rewrite Hs, Hd. simpl.
  split; intros x Hx; by rewrite Hx.
Qed.

(** X6: arrays, numbers, booleans and [undefined] on a field of a nested
    schema without decorator leave the field unset, whatever the nested
    decoder would do with them. *)
Theorem nested_other_inputs_ignored
    (reg : Registry) (xToClass : ClassSchema -> value -> result value)
    (parse : string -> result value) (p : PropertySchema) (schema : ClassSchema) :
  getClassSchema reg (resolveClassType p) = Some schema ->
  decorator schema = None ->
  (forall items, toClass_class reg xToClass parse p (VArr items) = untouched)
  /\ (forall n, toClass_class reg xToClass parse p (VNum n) = untouched)
  /\ (forall b, toClass_class reg xToClass parse p (VBool b) = untouched)
  /\ toClass_class reg xToClass parse p VNaN = untouched
  /\ toClass_class reg xToClass parse p VUndefined = untouched.
Proof.
  intros Hs Hd. unfold toClass_class. rewrite Hs, Hd. simpl.
  repeat split; intros; by rewrite ?andb_false_r.
Qed.

(** X7: for a nested schema with a decorator every input, strings included,
    goes to the nested decoder as it is: nothing is parsed, the entity is
    assigned and an exception reaches the caller. *)
Theorem decorated_gets_raw_value
    (reg : Registry) (xToClass : ClassSchema -> value -> result value)
    (parse parse' : string -> result value) (p : PropertySchema)
    (schema : ClassSchema) (d : string) (v : value) :
  getClassSchema reg (resolveClassType p) = Some schema ->
  decorator schema = Some d ->
  let r := toClass_class reg xToClass parse p v in
  (forall entity, xToClass schema v = Ok entity -> r = assign entity)
  /\ (forall e, xToClass schema v = Throw e -> r = Throw e)
  /\ r = toClass_class reg xToClass parse' p v.
Proof.
  intros Hs Hd r. subst r. unfold toClass_class. rewrite Hs, Hd. simpl.
  repeat split; intros x Hx; by rewrite Hx.
Qed.

Lemma run_discriminator_cases convert (l : list UnionType) (e : step) (v : value) :
  (no_guard_matches l v /\ run_discriminator (chain_of convert l) e v = e)
  \/ exists pre c post,
      l = pre ++ c :: post /\ no_guard_matches pre v /\ ut_guard c v = true
      /\ run_discriminator (chain_of convert l) e v = convert (ut_property c) v.
Proof.
  induction l as [|u l IH]; simpl.
  - left. split; [constructor|done].
  - destruct (ut_guard u v) eqn:Hu.
    + right. exists [], u, l. repeat split; try done. constructor.
    + destruct IH as [[Hno He]|(pre & c & post & -> & Hpre & Hc & Hr)].
      * left. split; [by constructor|done].
      * right. exists (u :: pre), c, post. repeat split; try done. by constructor.
Qed.

(** X8: a union step does one of two things, in both directions: either no
    guard accepts the input and the result is the fallback, or the sorted
    candidates split at the first guard that accepts and the result is the
    conversion of that candidate, whatever the later guards would say. *)
Theorem union_step_cases
    (sorted : PropertySchema -> list UnionType)
    (toClassJS fromClassJS : PropertySchema -> value -> step)
    (p : PropertySchema) (v : value) :
  (no_guard_matches (sorted p) v
   /\ toClass_union sorted toClassJS p v = fallback_of p
   /\ fromClass_union sorted fromClassJS p v = fallback_of p)
  \/ exists pre c post,
      sorted p = pre ++ c :: post /\ no_guard_matches pre v /\ ut_guard c v = true
      /\ toClass_union sorted toClassJS p v = toClassJS (ut_property c) v
      /\ fromClass_union sorted fromClassJS p v = fromClassJS (ut_property c) v.
Proof.
  unfold toClass_union, fromClass_union. rewrite !union_step_unfold.
  destruct (run_discriminator_cases toClassJS (sorted p) (fallback_of p) v)
    as [[Hno He]|(pre & c & post & Hs & Hpre & Hc & Hr)].
  - left. by rewrite !run_discriminator_miss.
  - right. exists pre, c, post. rewrite Hs.
    rewrite !run_discriminator_skip, !run_discriminator_hit by done. done.
Qed.

(** X9: the error of a union without fallback that no guard accepts is the
    fixed text ending in "Guard tried: []." whatever the candidates; the type
    tags the loop collects in [discriminants] do not reach the message. *)
Theorem union_error_lists_no_guard
    (sorted : PropertySchema -> list UnionType)
    (convert : PropertySchema -> value -> step)
    (p : PropertySchema) (v : value) :
  no_guard_matches (sorted p) v ->
  isOptional p = false -> isNullable p = false -> hasManualDefaultValue p = false ->
  union_step sorted convert p v
  = Throw (Error "No valid discriminant was found, so could not determine class type. Guard tried: [].")
  /\ union_discriminants sorted convert p
     = map (fun u => type_name (type (ut_property u))) (sorted p).
Proof.
  intros Hno Ho Hn Hd. split; [|apply union_discriminants_collected].
  rewrite union_step_unfold, run_discriminator_miss by done.
  unfold fallback_of. by rewrite Ho, Hn, Hd.
Qed.


Lemma assignIds_other field start items (heap : gmap nat (gmap string value)) item :
  item ∉ items ->
  MySQLPersistence.assignIds field start items heap !! item = heap !! item.
Proof.
  revert start heap. induction items as [|a items IH]; intros start heap Hnot; [done|].
  apply not_elem_of_cons in Hnot as [Hne Hnot]. simpl.
  rewrite IH by done. by rewrite lookup_alter_ne.
Qed.

Lemma assignIds_last field start items (heap : gmap nat (gmap string value)) i item :
  items !! i = Some item ->
  item ∉ drop (S i) items ->
  MySQLPersistence.assignIds field start items heap !! item
  = insert field (VNum (start + Z.of_nat i)) <$> heap !! item.
Proof.
  revert start heap i. induction items as [|a items IH]; intros start heap i Hi Hlast;
    [done|].
  destruct i as [|i]; simpl in *.
  - injection Hi as ->. rewrite drop_0 in Hlast.
    rewrite assignIds_other by done. rewrite lookup_alter_eq.
    by rewrite Z.add_0_r.
  - rewrite (IH _ _ i) by done.
    replace (start + 1 + Z.of_nat i) with (start + Z.pos (Pos.of_succ_nat i)) by lia.
    destruct (decide (a = item)) as [->|Hne].
    + rewrite lookup_alter_eq. destruct (heap !! item); simpl; [|done].
      by rewrite insert_insert_eq.
    + by rewrite lookup_alter_ne.
Qed.

Lemma assignIds_dom field start items (heap : gmap nat (gmap string value)) :
  dom (MySQLPersistence.assignIds field start items heap) = dom heap.
Proof.
  revert start heap. induction items as [|a items IH]; intros start heap; [done|].
  simpl. rewrite IH. apply dom_alter_L.
Qed.

Lemma assignIds_frame field start items (heap : gmap nat (gmap string value)) item k :
  k <> field ->
  MySQLPersistence.assignIds field start items heap !! item ≫= (fun o => o !! k)
  = heap !! item ≫= (fun o => o !! k).
Proof.
  intros Hk. revert start heap. induction items as [|a items IH]; intros start heap; [done|].
  simpl. rewrite IH.
  destruct (decide (a = item)) as [->|Hne].
  - rewrite lookup_alter_eq. destruct (heap !! item); simpl; [|done].
    by rewrite lookup_insert_ne.
  - by rewrite lookup_alter_ne.
Qed.


(** X11: [populateAutoIncrementFields] writes nothing but the
    auto-increment field of the listed items: no object appears or
    disappears, an object not listed is unchanged, and every other property
    of every object is as before. *)
Theorem autoIncrement_frame (autoIncrement : option PropertySchema)
    (last : option (list UpsertResult)) (items : list nat)
    (heap heap' : gmap nat (gmap string value)) :
  MySQLPersistence.populateAutoIncrementFields autoIncrement last items heap
  = Resolved heap' ->
  dom heap' = dom heap
  /\ (forall item, item ∉ items -> heap' !! item = heap !! item)
  /\ (forall item k, Some k <> name <$> autoIncrement ->
        heap' !! item ≫= (fun o => o !! k) = heap !! item ≫= (fun o => o !! k)).
Proof.
  unfold MySQLPersistence.populateAutoIncrementFields.
  destruct autoIncrement as [field|]; [|by intros [= <-]].
  destruct last as [[|result rest]|]; try done. intros [= <-].
  split; [apply assignIds_dom|]. split.
  - intros item Hitem. by apply assignIds_other.
  - intros item k Hk. apply assignIds_frame. simpl in Hk. congruence.
Qed.


(** X13: [populateAutoIncrementFields] rejects exactly when the schema has an
    auto-increment field and the connection has no last result or an empty
    one, also for an empty list of items, and then with "No lastBatchResult
    found"; without an auto-increment field it resolves and changes
    nothing. *)
Theorem autoIncrement_rejects_iff (autoIncrement : option PropertySchema)
    (last : option (list UpsertResult)) (items : list nat)
    (heap : gmap nat (gmap string value)) :
  let r := MySQLPersistence.populateAutoIncrementFields autoIncrement last items heap in
  ((exists e, r = Rejected e)
   <-> is_Some autoIncrement /\ (last = None \/ last = Some []))
  /\ (r = Rejected (Error "No lastBatchResult found") \/ exists heap', r = Resolved heap')
  /\ MySQLPersistence.populateAutoIncrementFields None last items heap = Resolved heap.
Proof.
  intros r. subst r. unfold MySQLPersistence.populateAutoIncrementFields.
  split; [|split; [|done]].
  - destruct autoIncrement as [field|].
    + destruct last as [[|result rest]|].
      * split; [intros _; split; [by eexists | by right] | intros _; by eexists].
      * split; [by intros [e He] | by intros [_ [?|?]]].
      * split; [intros _; split; [by eexists | by left] | intros _; by eexists].
    + split; [by intros [e He] | by intros [[? ?] _]].
  - destruct autoIncrement as [field|]; [|right; by eexists].
    destruct last as [[|result rest]|]; [by left | right; by eexists | by left].
Qed.

Lemma runAll_snoc c calls sql params query :
  runAll c (calls ++ [(sql, params, query)])
  = (MySQLConnection.run (runAll c calls) sql params query).1.
Proof. unfold runAll. by rewrite fold_left_app. Qed.

Lemma lastResolved_snoc calls sql params query :
  lastResolved (calls ++ [(sql, params, query)])
  = match query with
    | Resolved (Single r) => Some [r]
    | Resolved (Batch rs) => Some rs
    | Rejected _ => lastResolved calls
    end.
Proof. unfold lastResolved. by rewrite fold_left_app. Qed.

(** X14: after any sequence of [run]s the connection holds in
    [lastExecResult] the packets of the last call the driver answered, a
    single packet as a list of one; a rejected call does not clear it.  Every
    call adds one entry to the log and none changes what [getChanges]
    reports. *)
Theorem runAll_keeps_last_answer (c : MySQLConnection.t)
    (calls : list (string * list value * settled QueryResult)) :
  MySQLConnection.lastExecResult (runAll c calls)
  = match lastResolved calls with
    | Some rs => Some rs
    | None => MySQLConnection.lastExecResult c
    end
  /\ MySQLConnection.getChanges (runAll c calls) = MySQLConnection.getChanges c
  /\ List.length (MySQLConnection.log (runAll c calls))
     = (List.length (MySQLConnection.log c) + List.length calls)%nat.
Proof.
  induction calls as [|[[sql params] query] calls IH] using rev_ind.
  - simpl. split; [done|]. split; [done|]. lia.
  - destruct IH as (Hlast & Hch & Hlog).
    rewrite runAll_snoc, lastResolved_snoc.
    unfold MySQLConnection.getChanges in *.
    destruct query as [[r|rs]|e]; simpl; rewrite !length_app; simpl;
      (split; [done|]); (split; [congruence|lia]).
Qed.


(** X16: [get] of a statement logs what [all] logs and resolves with the
    first of the rows [all] resolves with, [undefined] when there are none;
    it rejects only when the driver rejects. *)
Theorem statement_get_is_first_of_all (log : list LogEntry) (sql : string)
    (params : list value) (query : settled (list value)) :
  (MySQLStatement.get log sql params query).1 = (MySQLStatement.all log sql params query).1
  /\ (MySQLStatement.get log sql params query).2
     = match (MySQLStatement.all log sql params query).2 with
       | Resolved rows => Resolved (default VUndefined (head rows))
       | Rejected e => Rejected e
       end
  /\ ((exists e, (MySQLStatement.get log sql params query).2 = Rejected e)
      <-> exists e, query = Rejected e).
Proof.
  destruct query as [rows|e]; simpl; repeat split; try done.
  - by intros [e He]. - by intros [e He].
  - intros _. by eexists. - intros _. by eexists.
Qed.


Section ObjectFacts.
Context {A : Type}.
Implicit Types (o : list (string * A)) (k : string).

Lemma obj_get_set_eq o k x :
  MySQLPersistence.obj_get (MySQLPersistence.obj_set o k x) k = Some x.
Proof.
  induction o as [|[k' y] o IH]; simpl.
  - by rewrite bool_decide_eq_true_2.
  - case_bool_decide; simpl.
    + by rewrite bool_decide_eq_true_2.
    + by rewrite bool_decide_eq_false_2.
Qed.

Lemma obj_get_set_ne o k k' x :
  k <> k' ->
  MySQLPersistence.obj_get (MySQLPersistence.obj_set o k x) k'
  = MySQLPersistence.obj_get o k'.
Proof.
  intros Hne. induction o as [|[k0 y] o IH]; simpl.
  - by rewrite bool_decide_eq_false_2.
  - case_bool_decide; simpl.
    + subst. by rewrite !bool_decide_eq_false_2.
    + by rewrite IH.
Qed.

Lemma obj_get_Some_keys o k : is_Some (MySQLPersistence.obj_get o k) <-> k ∈ map fst o.
Proof.
  induction o as [|[k' y] o IH]; simpl.
  - split; [by intros [? ?] | by intros ?%elem_of_nil].
  - rewrite elem_of_cons. case_bool_decide; subst.
    + split; [by left | by eexists].
    + rewrite IH. split; [by right | by intros [?|?]].
Qed.
End ObjectFacts.

Lemma insert_index_perm x l : MySQLPersistence.insert_index x l ≡ₚ x :: l.
Proof.
  induction l as [|y l IH]; simpl; [done|].
  destruct (x.1 <=? y.1); [done|]. rewrite IH. apply Permutation_swap.
Qed.

Lemma forIn_perm {A : Type} (o : list (string * A)) :
  MySQLPersistence.forIn o ≡ₚ map fst o.
Proof.
  unfold MySQLPersistence.forIn. induction (map fst o) as [|k keys IH]; [done|].
  rewrite filter_cons. simpl omap.
  destruct (MySQLPersistence.array_index k) as [n|] eqn:Hk.
  - case_decide; [done|]. simpl. rewrite insert_index_perm. simpl. by rewrite IH.
  - case_decide; [|done]. simpl. rewrite <- Permutation_middle. by rewrite IH.
Qed.

Lemma forIn_elem {A : Type} (o : list (string * A)) (k : string) :
  k ∈ MySQLPersistence.forIn o <-> k ∈ map fst o.
Proof. by rewrite forIn_perm. Qed.

Section BatchFacts.
Variable partialSerialize : list (string * value) -> list (string * value).
Variable quoteValue : value -> string.
Variable quoteIdentifier : string -> string.
Variable tableName : string.
Variable pkName : string.

Abbreviation ensureColumn := (MySQLPersistence.ensureColumn quoteIdentifier tableName).
Abbreviation setStep := (MySQLPersistence.setStep quoteValue quoteIdentifier tableName).
Abbreviation incStep := (MySQLPersistence.incStep quoteValue quoteIdentifier tableName).
Abbreviation changeSetStep :=
  (MySQLPersistence.changeSetStep partialSerialize quoteValue quoteIdentifier tableName pkName).
Abbreviation collectChanges :=
  (MySQLPersistence.collectChanges partialSerialize quoteValue quoteIdentifier tableName pkName).

Lemma column_ensure b i k : column (ensureColumn b i) k = column b k.
Proof.
  unfold column, MySQLPersistence.ensureColumn.
  destruct (MySQLPersistence.obj_get (MySQLPersistence.values b) i) eqn:Hi; [done|].
  simpl. destruct (decide (i = k)) as [->|Hne].
  - by rewrite obj_get_set_eq, Hi.
  - by rewrite obj_get_set_ne.
Qed.

Lemma column_push b i x k :
  column (MySQLPersistence.pushValue b i x) k
  = if decide (k = i) then column b i ++ [x] else column b k.
Proof.
  unfold column, MySQLPersistence.pushValue. simpl. case_decide.
  - subst. by rewrite obj_get_set_eq.
  - by rewrite obj_get_set_ne.
Qed.

Lemma has_ensure b i k : hasColumn (ensureColumn b i) k <-> hasColumn b k \/ k = i.
Proof.
  unfold hasColumn, MySQLPersistence.ensureColumn.
  destruct (MySQLPersistence.obj_get (MySQLPersistence.values b) i) eqn:Hi.
  - split; [by left|]. intros [?| ->]; [done|]. by rewrite Hi.
  - simpl. destruct (decide (i = k)) as [->|Hne].
    + rewrite obj_get_set_eq. split; [by right | by eexists].
    + rewrite obj_get_set_ne by done. split; [by left|]. by intros [?|?].
Qed.

Lemma has_push b i x k : hasColumn (MySQLPersistence.pushValue b i x) k <-> hasColumn b k \/ k = i.
Proof.
  unfold hasColumn, MySQLPersistence.pushValue. simpl.
  destruct (decide (i = k)) as [->|Hne].
  - rewrite obj_get_set_eq. split; [by right | by eexists].
  - rewrite obj_get_set_ne by done. split; [by left|]. by intros [?|?].
Qed.

Lemma fold_require_values keys b :
  MySQLPersistence.values (fold_left MySQLPersistence.requireField keys b)
  = MySQLPersistence.values b.
Proof. revert b. induction keys as [|k keys IH]; intros b; simpl; [done|]. by rewrite IH. Qed.

Lemma set_fold es b added k :
  NoDup (map fst es) ->
  let r := fold_left setStep es (b, added) in
  List.length (column r.1 k)
  = (List.length (column b k) + count (k ∈ map fst es))%nat
  /\ (hasColumn r.1 k <-> hasColumn b k \/ k ∈ map fst es)
  /\ (forall j, is_Some (MySQLPersistence.obj_get r.2 j)
                <-> is_Some (MySQLPersistence.obj_get added j) \/ j ∈ map fst es).
Proof.
  revert b added. induction es as [|[i x] es IH]; intros b added Hnd; simpl.
  - unfold count. rewrite decide_False by apply not_elem_of_nil.
    split; [lia|]. split.
    + split; [by left|]. intros [?|?%elem_of_nil]; done.
    + intros j. split; [by left|]. intros [?|?%elem_of_nil]; done.
  - apply NoDup_cons in Hnd as [Hi Hnd].
    destruct (IH (MySQLPersistence.pushValue
                    (MySQLPersistence.requireField (ensureColumn b i) i) i (quoteValue x))
                 (MySQLPersistence.obj_set added i 1) Hnd) as (Hlen & Hhas & Hadded).
    split; [|split].
    + rewrite Hlen, column_push. unfold count.
      change (column (MySQLPersistence.requireField (ensureColumn b i) i))
        with (column (ensureColumn b i)).
      rewrite !column_ensure.
      destruct (decide (k = i)) as [->|Hne].
      * rewrite decide_False by done. rewrite decide_True by (by left).
        rewrite length_app. simpl. lia.
      * destruct (decide (k ∈ map fst es)).
        -- rewrite decide_True by (by right). lia.
        -- rewrite decide_False; [lia|]. by intros [?|?]%elem_of_cons.
    + rewrite Hhas, has_push.
      change (hasColumn (MySQLPersistence.requireField (ensureColumn b i) i) k)
        with (hasColumn (ensureColumn b i) k).
      rewrite has_ensure, elem_of_cons. tauto.
    + intros j. rewrite Hadded, elem_of_cons.
      destruct (decide (i = j)) as [->|Hne].
      * rewrite obj_get_set_eq. split; [by right; left|]. intros _. left. by eexists.
      * rewrite obj_get_set_ne by done. split; [tauto|].
        intros [?|[?|?]]; [tauto|congruence|tauto].
Qed.

Lemma inc_fold cs id es b added k :
  NoDup (map fst es) ->
  let r := fold_left (incStep cs id) es (b, added) in
  List.length (column r.1 k)
  = (List.length (column b k)
     + count (k ∈ map fst es /\ MySQLPersistence.obj_get added k = None))%nat
  /\ (hasColumn r.1 k <-> hasColumn b k \/ k ∈ map fst es).
Proof.
  revert b added. induction es as [|[i x] es IH]; intros b added Hnd; simpl.
  - unfold count. rewrite decide_False by (by intros [?%elem_of_nil _]).
    split; [lia|]. split; [by left|]. intros [?|?%elem_of_nil]; done.
  - apply NoDup_cons in Hnd as [Hi Hnd].
    set (b1 := MySQLPersistence.requireField
                 (MySQLPersistence.noteIncrement quoteValue quoteIdentifier
                    (ensureColumn b i) cs id i x) i).
    assert (column b1 k = column b k) as Hb1 by apply column_ensure.
    assert (hasColumn b1 k <-> hasColumn b k \/ k = i) as Hh1 by apply has_ensure.
    destruct (MySQLPersistence.obj_get added i) eqn:Hadded.
    + destruct (IH b1 added Hnd) as (Hlen & Hhas). split.
      * rewrite Hlen, Hb1. f_equal. unfold count.
        destruct (decide (k = i)) as [->|Hne].
        -- rewrite !decide_False; [done| |]; rewrite ?Hadded; intros [? ?]; done.
        -- destruct (decide (k ∈ map fst es /\ MySQLPersistence.obj_get added k = None))
             as [[? ?]|Hn].
           ++ rewrite decide_True; [done|]. split; [by right|done].
           ++ rewrite decide_False; [done|]. intros [[?|?]%elem_of_cons ?]; tauto.
      * rewrite Hhas, Hh1, elem_of_cons. tauto.
    + destruct (IH (MySQLPersistence.pushValue b1 i (quoteValue VNull))
                  (MySQLPersistence.obj_set added i 1) Hnd) as (Hlen & Hhas). split.
      * rewrite Hlen, column_push. unfold count.
        destruct (decide (k = i)) as [->|Hne].
        -- rewrite Hb1, length_app. simpl.
           rewrite decide_False by (by intros [? _]).
           rewrite decide_True; [lia|]. split; [by left|done].
        -- rewrite Hb1, obj_get_set_ne by done.
           destruct (decide (k ∈ map fst es /\ MySQLPersistence.obj_get added k = None))
             as [[? ?]|Hn].
           ++ rewrite decide_True; [done|]. split; [by right|done].
           ++ rewrite decide_False; [done|]. intros [[?|?]%elem_of_cons ?]; tauto.
      * rewrite Hhas, has_push, Hh1, elem_of_cons. tauto.
Qed.

Lemma entries_keys (o : list (string * value)) :
  map fst (omap (fun i => x ← MySQLPersistence.obj_get o i; Some (i, x))
             (MySQLPersistence.forIn o))
  = MySQLPersistence.forIn o.
Proof.
  assert (forall ks, (forall i, i ∈ ks -> i ∈ map fst o) ->
            map fst (omap (fun i => x ← MySQLPersistence.obj_get o i; Some (i, x)) ks) = ks)
    as H.
  { induction ks as [|i ks IH]; intros Hks; [done|]. simpl.
    destruct (proj2 (obj_get_Some_keys o i) (Hks i (list_elem_of_here _ _))) as [x Hx].
    rewrite Hx. simpl. f_equal. apply IH. intros j Hj. apply Hks. by right. }
  apply H. intros i Hi. by rewrite <- (forIn_perm o).
Qed.

Lemma changeSetStep_column b cs k :
  wellKeyed partialSerialize cs ->
  List.length (column (changeSetStep b cs) k)
  = (List.length (column b k) + count (k = pkName)
     + count (k ∈ touched partialSerialize cs))%nat
  /\ (hasColumn (changeSetStep b cs) k
      <-> hasColumn b k \/ k = pkName \/ k ∈ touched partialSerialize cs).
Proof.
  intros [Hset Hinc]. unfold MySQLPersistence.changeSetStep, touched.
  set (b0 := fold_left MySQLPersistence.requireField _ b).
  assert (MySQLPersistence.values b0 = MySQLPersistence.values b) as Hb0
    by apply fold_require_values.
  set (b1 := match MySQLPersistence.obj_get (MySQLPersistence.values b0) pkName with
             | Some _ => b0
             | None => _
             end).
  assert (column b1 k = column b k /\ (hasColumn b1 k <-> hasColumn b k \/ k = pkName))
    as [Hc1 Hh1].
  { unfold b1, column, hasColumn.
    destruct (MySQLPersistence.obj_get (MySQLPersistence.values b0) pkName) eqn:Hpk.
    - rewrite Hb0. split; [done|]. split; [by left|].
      intros [?| ->]; [done|]. rewrite <- Hb0, Hpk. by eexists.
    - simpl. destruct (decide (pkName = k)) as [<-|Hne].
      + rewrite obj_get_set_eq. rewrite <- Hb0, Hpk. split; [done|].
        split; [by right | intros _; by eexists].
      + rewrite !obj_get_set_ne by done. rewrite Hb0. split; [done|].
        split; [by left|]. intros [?|?]; [done|congruence]. }
  set (id := default VUndefined _).
  set (b2 := MySQLPersistence.pushValue b1 pkName (quoteValue id)).
  assert (List.length (column b2 k) = (List.length (column b k) + count (k = pkName))%nat
          /\ (hasColumn b2 k <-> hasColumn b k \/ k = pkName)) as [Hc2 Hh2].
  { unfold b2. rewrite column_push, has_push. unfold count. split.
    - case_decide; subst.
      + rewrite length_app, Hc1. simpl. lia.
      + rewrite Hc1. lia.
    - rewrite Hh1. tauto. }
  destruct (MySQLPersistence.changes_set cs) as [set|];
    destruct (MySQLPersistence.changes_inc cs) as [inc|]; simpl.
  - pose proof (set_fold
                  (omap (fun i => x ← MySQLPersistence.obj_get (partialSerialize set) i;
                                  Some (i, x))
                     (MySQLPersistence.forIn (partialSerialize set)))
                  b2 [] k) as Hs.
    rewrite entries_keys in Hs.
    destruct Hs as (Hls & Hhs & Has); [by rewrite forIn_perm|].
    destruct (fold_left setStep _ (b2, [])) as [b3 added] eqn:Hfold. simpl in *.
    pose proof (inc_fold cs id
                  (omap (fun i => x ← MySQLPersistence.obj_get inc i; Some (i, x))
                     (MySQLPersistence.forIn inc))
                  b3 added k) as Hi.
    rewrite entries_keys in Hi.
    destruct Hi as (Hli & Hhi); [by rewrite forIn_perm|]. simpl in *.
    pose proof (forIn_elem (partialSerialize set) k) as Hes.
    pose proof (forIn_elem inc k) as Hei.
    assert (MySQLPersistence.obj_get added k = None
            <-> k ∉ map fst (partialSerialize set)) as Hadd.
    { rewrite eq_None_not_Some, Has. split; [tauto|]. intros Hn [[? ?]|?]; [done|tauto]. }
    split.
    + rewrite Hli, Hls, Hc2. unfold count.
      pose proof (elem_of_app (map fst (partialSerialize set)) (map fst inc) k) as Happ.
      clear - Hes Hei Hadd Happ.
      destruct (decide (k = pkName)); repeat case_decide; try lia; exfalso; tauto.
    + rewrite Hhi, Hhs, Hh2, elem_of_app. clear - Hes Hei. tauto.
  - pose proof (set_fold
                  (omap (fun i => x ← MySQLPersistence.obj_get (partialSerialize set) i;
                                  Some (i, x))
                     (MySQLPersistence.forIn (partialSerialize set)))
                  b2 [] k) as Hs.
    rewrite entries_keys in Hs.
    destruct Hs as (Hls & Hhs & Has); [by rewrite forIn_perm|].
    destruct (fold_left setStep _ (b2, [])) as [b3 added] eqn:Hfold. simpl in *.
    pose proof (forIn_elem (partialSerialize set) k) as Hes.
    rewrite app_nil_r. split.
    + rewrite Hls, Hc2. unfold count. clear - Hes.
      repeat case_decide; try lia; exfalso; tauto.
    + rewrite Hhs, Hh2. clear - Hes. tauto.
  - pose proof (inc_fold cs id
                  (omap (fun i => x ← MySQLPersistence.obj_get inc i; Some (i, x))
                     (MySQLPersistence.forIn inc))
                  b2 [] k) as Hi.
    rewrite entries_keys in Hi.
    destruct Hi as (Hli & Hhi); [by rewrite forIn_perm|]. simpl in *.
    pose proof (forIn_elem inc k) as Hei.
    split.
    + rewrite Hli, Hc2. unfold count. clear - Hei.
      repeat case_decide; try lia; exfalso; tauto.
    + rewrite Hhi, Hh2. clear - Hei. tauto.
  - pose proof (not_elem_of_nil k) as Hnil. split.
    + rewrite Hc2. unfold count. repeat case_decide; try lia; tauto.
    + rewrite Hh2. tauto.
Qed.

Lemma collect_from b css k :
  Forall (wellKeyed partialSerialize) css ->
  let r := fold_left changeSetStep css b in
  List.length (column r k)
  = (List.length (column b k) + List.length css * count (k = pkName)
     + List.length (filter (fun cs => k ∈ touched partialSerialize cs) css))%nat
  /\ (hasColumn r k <-> hasColumn b k \/ (css <> [] /\ k = pkName)
                  \/ Exists (fun cs => k ∈ touched partialSerialize cs) css).
Proof.
  intros Hall. revert b. induction Hall as [|cs css Hcs _ IH]; intros b; simpl.
  - split; [lia|]. rewrite Exists_nil. tauto.
  - destruct (IH (changeSetStep b cs)) as [Hlen Hhas].
    destruct (changeSetStep_column b cs k Hcs) as [Hl1 Hh1].
    split.
    + rewrite Hlen, Hl1, filter_cons. case_decide; unfold count;
        repeat case_decide; simpl; try lia; tauto.
    + rewrite Hhas, Hh1, Exists_cons.
      split; [|intros [?|[[_ ?]|[?|?]]]; tauto].
      intros [[?|[?|?]]|[[_ ?]|?]]; try tauto; right; left; done.
Qed.
End BatchFacts.

Lemma collected_column_length
    (partialSerialize : list (string * value) -> list (string * value))
    (quoteValue : value -> string) (quoteIdentifier : string -> string)
    (tableName pkName : string)
    (changeSets : list MySQLPersistence.ChangeSet) (k : string) :
  Forall (wellKeyed partialSerialize) changeSets ->
  List.length
    (column (MySQLPersistence.collectChanges partialSerialize quoteValue
               quoteIdentifier tableName pkName changeSets) k)
  = ((if decide (k = pkName) then List.length changeSets else 0)
     + List.length (filter (fun cs => k ∈ touched partialSerialize cs) changeSets))%nat.
Proof.
  intros Hall.
  destruct (collect_from partialSerialize quoteValue quoteIdentifier tableName pkName
              MySQLPersistence.emptyBatch changeSets k Hall) as [Hlen _].
  unfold MySQLPersistence.collectChanges. rewrite Hlen. unfold count.
  case_decide; simpl; lia.
Qed.





(** ** Worked instances of the further properties *)

Ltac distinct_keys :=
  simpl;
  repeat (apply NoDup_cons; split;
          [ rewrite ?not_elem_of_cons; repeat split;
            first [ done | apply not_elem_of_nil ] | ]);
  apply NoDup_nil_2.

Ltac well_keyed :=
  repeat (apply Forall_cons; split; [split; first [exact I | distinct_keys]|]);
  apply Forall_nil_2.

Lemma nested_object_decides_witness :
  let xToClass := fun s => runPipeline (Some (schemaName s))
                             (toClassConverter Examples.registry 1) s in
  let p := Examples.classProperty "start" "Point" true in
  toClass_class Examples.registry xToClass JSON_parse p Examples.x5
  = assign (VObj (Some "Point") (<["x" := VNum 5]> ∅)).
Proof.
  intros xToClass p.
  destruct (nested_object_decides Examples.registry xToClass JSON_parse p
              Examples.point None (<["x" := VNum 5]> ∅) eq_refl eq_refl) as [Hok _].
  apply Hok. vm_compute. reflexivity.
Defined.

Lemma nested_other_inputs_ignored_witness :
  let p := Examples.classProperty "start" "Point" false in
  toClass_class Examples.registry Fixtures.objectsOnly JSON_parse p (VArr [VNum 1])
  = untouched.
Proof.
  intros p.
  destruct (nested_other_inputs_ignored Examples.registry Fixtures.objectsOnly
              JSON_parse p Examples.point eq_refl eq_refl) as [Harr _].
  apply Harr.
Defined.

Lemma decorated_gets_raw_value_witness :
  let p := Examples.classProperty "tags" "Wrapper" false in
  toClass_class Fixtures.registry Fixtures.objectsOnly JSON_parse p
    (VStr Examples.x5_text)
  = Throw (Error "Not an object").
Proof.
  intros p.
  destruct (decorated_gets_raw_value Fixtures.registry Fixtures.objectsOnly
              JSON_parse JSON_parse p Fixtures.wrapper "items"
              (VStr Examples.x5_text) eq_refl eq_refl) as (_ & Hthrow & _).
  by apply Hthrow.
Defined.

Lemma union_error_lists_no_guard_witness :
  let sorted := getSortedUnionTypes Examples.registry in
  let decode := toClassConverter Examples.registry 2 in
  no_guard_matches (sorted Examples.unionAB) (VStr "z")
  /\ union_step sorted decode Examples.unionAB (VStr "z")
     = Throw (Error "No valid discriminant was found, so could not determine class type. Guard tried: [].")
  /\ union_discriminants sorted decode Examples.unionAB = ["literal"; "literal"].
Proof.
  intros sorted decode.
  assert (Hno : no_guard_matches (sorted Examples.unionAB) (VStr "z"))
    by (repeat constructor).
  destruct (union_error_lists_no_guard sorted decode Examples.unionAB (VStr "z")
              Hno eq_refl eq_refl eq_refl) as [Hmsg Htags].
  split; [exact Hno|]. split; [exact Hmsg|]. rewrite Htags. reflexivity.
Defined.


Lemma autoIncrement_frame_witness :
  let heap' := MySQLPersistence.assignIds "id" 41 [0; 1]%nat Fixtures.heap in
  heap' !! 2%nat = Fixtures.heap !! 2%nat
  /\ heap' !! 0%nat ≫= (fun o => o !! "title") = Some (VStr "a").
Proof.
  intros heap'.
  destruct (autoIncrement_frame (Some Fixtures.idField) (Some [Fixtures.inserted])
              [0; 1]%nat Fixtures.heap heap' eq_refl) as (_ & Hother & Hframe).
  split.
  - apply Hother. intros Hin.
    apply elem_of_cons in Hin as [Hin|Hin]; [discriminate|].
    apply list_elem_of_singleton in Hin. discriminate.
  - rewrite (Hframe 0%nat "title"); [reflexivity|]. simpl. discriminate.
Defined.






